(** * Gradient mask engine: colour codec, intensity blend, direction
      resolver, mask cache and compositor of react-native-gradient-mask.

    The development embeds the rendering back ends of the package:
    - [Web]           the CSS [mask-image] implementation
                      (GradientMaskView.web.tsx, AnimatedGradientMaskView.web.tsx);
    - [Android]       the view that caches a base bitmap and applies the
                      intensity with a [ColorMatrix] at draw time;
    - [AndroidLegacy] the earlier view that bakes the intensity into the
                      gradient stops and rebuilds its bitmap;
    - [IOS]           the [CAGradientLayer] + solid overlay view;
    - [AndroidModule], [IOSModule]  the props of the native module
                      definitions and the life cycle of a view;
    - [AndroidChecked] the Android rebuild and draw with the exception of
                      the platform's gradient constructor.

    Numbers: JavaScript numbers, Kotlin [Float]/[Double] and Swift
    [CGFloat] values are embedded as exact rationals ([Q]): every such
    value is finite (there is no NaN and no infinity) and arithmetic on
    them is exact (there is no rounding to a double or a float).  32-bit
    integer operators are written out with their wrap-around on [Z]. *)

From Stdlib Require Import ZArith QArith Qround Lia Lqa List Bool String.
Import ListNotations.

Local Open Scope string_scope.
Local Open Scope Z_scope.

(* ------------------------------------------------------------------ *)
(** ** 32-bit integers *)

Module Int32.

(** The value of a 32-bit pattern read as unsigned, and as two's
    complement. *)
Definition unsigned (z : Z) : Z := z mod 2 ^ 32.

Definition signed (z : Z) : Z :=
  let u := z mod 2 ^ 32 in
  if u <? 2 ^ 31 then u else u - 2 ^ 32.

End Int32.

(* ------------------------------------------------------------------ *)
(** ** JavaScript 32-bit integer operators *)

Module JS.

(** [ToUint32] and [ToInt32] of ECMAScript, on an integral number. *)
Definition ToUint32 (z : Z) : Z := Int32.unsigned z.

Definition ToInt32 (z : Z) : Z := Int32.signed z.

(** [a >>> n] *)
Definition ushr (a n : Z) : Z := Z.shiftr (ToUint32 a) (n mod 32).

(** [a >> n] *)
Definition sar (a n : Z) : Z := Z.shiftr (ToInt32 a) (n mod 32).

(** [a << n] *)
Definition shl (a n : Z) : Z := ToInt32 (Z.shiftl (ToInt32 a) (n mod 32)).

(** [a & b] *)
Definition band (a b : Z) : Z := Z.land (ToInt32 a) (ToInt32 b).

(** [a | b] *)
Definition bor (a b : Z) : Z := Z.lor (ToInt32 a) (ToInt32 b).

(** [Math.round]: the nearest integer, halves rounded towards +infinity. *)
Definition Math_round (x : Q) : Z := Qfloor (x + (1 # 2))%Q.

(** A JavaScript number as far as the gradient builder can produce one:
    a finite value or [NaN] (from [0 / 0]). *)
Inductive number : Type :=
| Num (q : Q)
| NaN.

(** [i / d] for integral [i >= 0], [d >= 0] with [i = 0] whenever [d = 0]
    is the only division the builder performs. *)
Definition div_index (i d : Z) : number :=
  if d =? 0 then NaN else Num (inject_Z i / inject_Z d)%Q.

Definition times100 (x : number) : number :=
  match x with
  | Num q => Num (q * 100)%Q
  | NaN => NaN
  end.

End JS.

(* ------------------------------------------------------------------ *)
(** ** Web back end *)

Module Web.

(** A processed colour as the props carry it: [number | null]. *)
Definition color := option Z.

(** The four channels read by [colorToRgba] and [adjustColorsForOpacity]:
    [intValue = color >>> 0], then one shift and mask per channel.
    The alpha channel is kept as its byte; the source divides it by 255. *)
Record channels : Type := mkChannels
  { ch_a : Z; ch_r : Z; ch_g : Z; ch_b : Z }.

Definition decode (c : Z) : channels :=
  let intValue := JS.ushr c 0 in
  {| ch_a := JS.band (JS.sar intValue 24) 255;
     ch_r := JS.band (JS.sar intValue 16) 255;
     ch_g := JS.band (JS.sar intValue 8) 255;
     ch_b := JS.band intValue 255 |}.

(** The repacking expression of [adjustColorsForOpacity]:
    [((alpha << 24) | (r << 16) | (g << 8) | b) >>> 0]. *)
Definition encode (alpha r g b : Z) : Z :=
  JS.ushr
    (JS.bor (JS.bor (JS.bor (JS.shl alpha 24) (JS.shl r 16)) (JS.shl g 8)) b)
    0.

Definition encode_channels (c : channels) : Z :=
  encode (ch_a c) (ch_r c) (ch_g c) (ch_b c).

(** The value of the string [rgba(r, g, b, a)].  The alpha number is kept
    in lowest terms, so that equal numbers give equal descriptors, as
    they print to equal strings. *)
Record rgba : Type := mkRgba
  { css_r : Z; css_g : Z; css_b : Z; css_a : Q }.

Definition colorToRgba (c : color) : rgba :=
  match c with
  | None => mkRgba 0 0 0 0
  | Some color =>
      let ch := decode color in
      let a := (inject_Z (ch_a ch) / 255)%Q in
      mkRgba (ch_r ch) (ch_g ch) (ch_b ch) (Qred a)
  end.

(** The [direction] prop after the component's default ['top'] has been
    applied to an absent value. *)
Definition prop_direction (d : option string) : string :=
  match d with
  | Some s => s
  | None => "top"
  end.

Definition getGradientDirection (direction : string) : string :=
  if String.eqb direction "top" then "to bottom"
  else if String.eqb direction "bottom" then "to top"
  else if String.eqb direction "left" then "to right"
  else if String.eqb direction "right" then "to left"
  else "to bottom".

(** One [<color> <location>%] entry and the whole
    [linear-gradient(<direction>, <stops>)] value. *)
Record color_stop : Type := mkStop
  { cs_color : rgba; cs_location : JS.number }.

Record gradient : Type := mkGradient
  { g_direction : string; g_stops : list color_stop }.

(** [Array.prototype.map] with its index argument. *)
Fixpoint mapi_from {A B : Type} (f : A -> Z -> B) (i : Z) (l : list A)
  : list B :=
  match l with
  | [] => []
  | x :: l' => f x i :: mapi_from f (i + 1) l'
  end.

Definition mapi {A B : Type} (f : A -> Z -> B) (l : list A) : list B :=
  mapi_from f 0 l.

(** [locations[index]]: [None] stands for [undefined].  The array holds
    numbers only, as its type [number[]] says: no hole and no NaN. *)
Definition at_index (locations : list Q) (index : Z) : option Q :=
  if index <? 0 then None else nth_error locations (Z.to_nat index).

Definition stop_location (colors : list color) (locations : list Q)
    (index : Z) : JS.number :=
  match at_index locations index with
  | Some l => JS.Num (l * 100)%Q
  | None =>
      JS.times100 (JS.div_index index (Z.of_nat (List.length colors) - 1))
  end.

Definition buildGradientString (colors : list color) (locations : list Q)
    (direction : string) : gradient :=
  let gradientDirection := getGradientDirection direction in
  let colorStops :=
    mapi (fun color index =>
            mkStop (colorToRgba color) (stop_location colors locations index))
         colors in
  mkGradient gradientDirection colorStops.

(** The alpha byte written back by [adjustColorsForOpacity] for a stop
    whose alpha byte is [av], in exact arithmetic.  The source evaluates
    the same expression in doubles, and where the exact value lies half way
    between two integers the rounded double can fall just below it, one
    step of alpha lower. *)
Definition adjustedAlphaByte (av : Z) (maskOpacity : Q) : Z :=
  let a := (inject_Z av / 255)%Q in
  let adjustedAlpha := (a + (1 - a) * (1 - maskOpacity))%Q in
  JS.Math_round (adjustedAlpha * 255)%Q.

Definition adjustColorsForOpacity (colors : list color) (maskOpacity : Q)
  : list color :=
  if Qle_bool 1 maskOpacity then colors
  else if Qle_bool maskOpacity 0 then
    map (fun _ => Some 4278190080) colors
  else
    map (fun c =>
           match c with
           | None => None
           | Some color =>
               let ch := decode color in
               Some (encode (adjustedAlphaByte (ch_a ch) maskOpacity)
                            (ch_r ch) (ch_g ch) (ch_b ch))
           end) colors.

(** The style object computed under [useMemo], in [GradientMaskView] from
    the [maskOpacity] prop and in [AnimatedGradientMaskView] from the
    current value of the shared one: [None] is the empty object, [Some g]
    carries [maskImage] (and [WebkitMaskImage]) [g]. *)
Definition maskStyle (colors : list color) (locations : list Q)
    (direction : option string) (maskOpacity : Q) : option gradient :=
  if Qle_bool maskOpacity 0 then None
  else
    let adjustedColors := adjustColorsForOpacity colors maskOpacity in
    Some (buildGradientString adjustedColors locations
                              (prop_direction direction)).

End Web.


(* ------------------------------------------------------------------ *)
(** ** The Android graphics primitives the views call *)

Module Graphics.

(** [Color.alpha(c)] is [c >>> 24]; [Color.argb(a, r, g, b)] packs the
    four bytes into an [Int]; [Color.WHITE] is [0xFFFFFFFF]. *)
Definition Color_alpha (color : Z) : Z :=
  Z.shiftr (Int32.unsigned color) 24.

Definition Color_argb (a r g b : Z) : Z :=
  Int32.signed
    (Z.lor (Z.lor (Z.lor (Z.shiftl a 24) (Z.shiftl r 16)) (Z.shiftl g 8)) b).

Definition Color_WHITE : Z := -1.

(** [Float.toInt()]: the fractional part is dropped, towards zero. *)
Definition toInt (x : Q) : Z :=
  if Qle_bool 0 x then Qfloor x else Qceiling x.

(** [x.coerceIn(lo, hi)], for a value that is a number: a NaN, which the
    source would hand on unchanged, is not a value of [Q]. *)
Definition coerceIn (x lo hi : Q) : Q :=
  if negb (Qle_bool lo x) then lo
  else if negb (Qle_bool x hi) then hi
  else x.

(** The arguments of
    [LinearGradient(x0, y0, x1, y1, colors, positions, TileMode.CLAMP)].
    The record holds any arguments; whether the platform's constructor
    accepts them is [AndroidChecked.constructorThrows]. *)
Record LinearGradient : Type := mkLinearGradient
  { lg_x0 : Q; lg_y0 : Q; lg_x1 : Q; lg_y1 : Q;
    lg_colors : list Z; lg_positions : list Q }.

(** What has been drawn over the whole of a freshly created bitmap:
    [drawColor(c)], or [drawRect(0, 0, width, height, paint)] with the
    paint's shader. *)
Inductive Fill : Type :=
| DrawColor (c : Z)
| DrawRectShader (sh : LinearGradient).

Record Bitmap : Type := mkBitmap
  { bm_width : Z; bm_height : Z; bm_fill : Fill }.

(** A 4x5 colour matrix, row by row. *)
Definition ColorMatrix : Type := list Q.

(** The alpha row of a colour matrix applied to a pixel: the fourth row
    [\[0, 0, 0, scale, translate\]] gives [alpha * scale + translate]. *)
Definition filterAlpha (m : ColorMatrix) (r g b a : Q) : Q :=
  (nth 15 m 0 * r + nth 16 m 0 * g + nth 17 m 0 * b + nth 18 m 0 * a
   + nth 19 m 0)%Q.

(** The canvas calls of one [dispatchDraw]. *)
Inductive CanvasOp : Type :=
| SuperDispatchDraw
| SaveLayer (left top right bottom : Q)
| DrawBitmapDstIn (bitmap : Bitmap) (colorFilter : option ColorMatrix)
| RestoreToCount.

(** The other framework calls a view issues; a view keeps them, most
    recent first, as a history that no code reads. *)
Inductive ViewCall : Type :=
| Invalidate
| Recycle (b : Bitmap)
| CreateBitmap (w h : Z).

Definition isCreateBitmap (c : ViewCall) : bool :=
  match c with
  | CreateBitmap _ _ => true
  | _ => false
  end.

(** Number of bitmaps built so far. *)
Definition rebuildCount (calls : list ViewCall) : nat :=
  List.length (filter isCreateBitmap calls).

(** Modelled from the spec: the rasteriser behind [LinearGradient], which
    is platform code.  Section 4.3: the alpha at a position is the
    linearly interpolated alpha between the two stops whose locations
    bracket the position's normalised coordinate, clamped to the first
    and last stop at the ends; the coordinate is the projection of the
    position onto the start-to-end axis. *)
Definition lerp (a0 l0 a1 l1 t : Q) : Q :=
  (a0 + (a1 - a0) * ((t - l0) / (l1 - l0)))%Q.

(** Modelled from the spec: section 4.3, the stops after the first, walked
    in authored order. *)
Fixpoint rampFrom (a0 l0 : Q) (rest : list (Q * Q)) (t : Q) : Q :=
  match rest with
  | [] => a0
  | (a1, l1) :: rest' =>
      if Qle_bool t l1 then lerp a0 l0 a1 l1 t else rampFrom a1 l1 rest' t
  end.

(** Modelled from the spec: section 4.3, the alpha of a stop list at a
    normalised coordinate, clamped to the first stop before its location. *)
Definition ramp (stops : list (Q * Q)) (t : Q) : Q :=
  match stops with
  | [] => 0%Q
  | (a0, l0) :: rest => if Qle_bool t l0 then a0 else rampFrom a0 l0 rest t
  end.

(** Modelled from the spec: section 4.3, the projection of a position onto
    the start-to-end axis, normalised by the length of the axis. *)
Definition project (x0 y0 x1 y1 px py : Q) : Q :=
  (((px - x0) * (x1 - x0) + (py - y0) * (y1 - y0))
   / ((x1 - x0) * (x1 - x0) + (y1 - y0) * (y1 - y0)))%Q.

(** Modelled from the spec: section 4.3, the alpha a gradient shader
    paints at a position, from the alpha of its colours. *)
Definition shaderAlpha (sh : LinearGradient) (px py : Q) : Q :=
  ramp (combine (map (fun c => inject_Z (Color_alpha c)) (lg_colors sh))
                (lg_positions sh))
       (project (lg_x0 sh) (lg_y0 sh) (lg_x1 sh) (lg_y1 sh) px py).

(** Alpha of a bitmap at a position. *)
Definition bitmapAlpha (b : Bitmap) (px py : Q) : Q :=
  match bm_fill b with
  | DrawColor c => inject_Z (Color_alpha c)
  | DrawRectShader sh => shaderAlpha sh px py
  end.

End Graphics.

(* ------------------------------------------------------------------ *)
(** ** Android view with a cached base bitmap and a draw-time ColorMatrix *)

Module Android.
Import Graphics.

Record View : Type := mkView
  { colors : option (list Z);
    locations : option (list Q);
    direction : string;
    maskOpacity : Q;
    baseMaskBitmap : option Bitmap;
    baseBitmapInvalidated : bool;
    (** [getWidth()] and [getHeight()], maintained by the framework *)
    width : Z;
    height : Z;
    calls : list ViewCall }.

Definition init : View :=
  mkView None None "top" 1 None true 0 0 [].

Definition call (c : ViewCall) (v : View) : View :=
  mkView (colors v) (locations v) (direction v) (maskOpacity v)
         (baseMaskBitmap v) (baseBitmapInvalidated v) (width v) (height v)
         (c :: calls v).

Definition setInvalidated (b : bool) (v : View) : View :=
  mkView (colors v) (locations v) (direction v) (maskOpacity v)
         (baseMaskBitmap v) b (width v) (height v) (calls v).

Definition setBitmap (b : option Bitmap) (v : View) : View :=
  mkView (colors v) (locations v) (direction v) (maskOpacity v)
         b (baseBitmapInvalidated v) (width v) (height v) (calls v).

Definition rebuilds (v : View) : nat := rebuildCount (calls v).

(** The cache key of the spec, read off a view. *)
Definition key (v : View)
  : option (list Z) * option (list Q) * string * Z * Z :=
  (colors v, locations v, direction v, width v, height v).

(** *** Props setters *)

Definition setColors (colorArray : option (list Z)) (v : View) : View :=
  let v := mkView colorArray (locations v) (direction v) (maskOpacity v)
                  (baseMaskBitmap v) (baseBitmapInvalidated v)
                  (width v) (height v) (calls v) in
  call Invalidate (setInvalidated true v).

Definition setLocations (locationArray : option (list Q)) (v : View)
  : View :=
  let v := mkView (colors v) locationArray (direction v) (maskOpacity v)
                  (baseMaskBitmap v) (baseBitmapInvalidated v)
                  (width v) (height v) (calls v) in
  call Invalidate (setInvalidated true v).

Definition setDirection (dir : string) (v : View) : View :=
  let v := mkView (colors v) (locations v) dir (maskOpacity v)
                  (baseMaskBitmap v) (baseBitmapInvalidated v)
                  (width v) (height v) (calls v) in
  call Invalidate (setInvalidated true v).

Definition setMaskOpacity (opacity : Q) (v : View) : View :=
  let newOpacity := coerceIn opacity 0 1 in
  if negb (Qeq_bool newOpacity (maskOpacity v)) then
    let v := mkView (colors v) (locations v) (direction v) newOpacity
                    (baseMaskBitmap v) (baseBitmapInvalidated v)
                    (width v) (height v) (calls v) in
    call Invalidate v
  else v.

(** *** Gradient construction *)

Definition getGradientCoordinates (v : View) : Q * Q * Q * Q :=
  let w := inject_Z (width v) in
  let h := inject_Z (height v) in
  if String.eqb (direction v) "top" then (0, 0, 0, h)%Q
  else if String.eqb (direction v) "bottom" then (0, h, 0, 0)%Q
  else if String.eqb (direction v) "left" then (0, 0, w, 0)%Q
  else if String.eqb (direction v) "right" then (w, 0, 0, 0)%Q
  else (0, 0, 0, h)%Q.

Definition recycleOld (v : View) : View :=
  match baseMaskBitmap v with
  | Some old => call (Recycle old) v
  | None => v
  end.

Definition maskColor (originalColor : Z) : Z :=
  let originalAlpha := Color_alpha originalColor in
  Color_argb originalAlpha 255 255 255.

Definition updateBaseMaskBitmap (v : View) : View :=
  if (width v <=? 0) || (height v <=? 0) then v
  else
    let v := recycleOld v in
    let v := call (CreateBitmap (width v) (height v)) v in
    let bitmap := mkBitmap (width v) (height v) in
    match colors v, locations v with
    | Some currentColors, Some currentLocations =>
        if negb (Nat.eqb (List.length currentColors)
                         (List.length currentLocations))
           || Nat.eqb (List.length currentColors) 0
        then setBitmap (Some (bitmap (DrawColor Color_WHITE))) v
        else
          let maskColors := map maskColor currentColors in
          let '(startX, startY, endX, endY) := getGradientCoordinates v in
          let shader :=
            mkLinearGradient startX startY endX endY
                             maskColors currentLocations in
          setBitmap (Some (bitmap (DrawRectShader shader))) v
    | _, _ => setBitmap (Some (bitmap (DrawColor Color_WHITE))) v
    end.

(** *** Layout *)

Definition onSizeChanged (w h oldw oldh : Z) (v : View) : View :=
  if (0 <? w) && (0 <? h) then setInvalidated false (updateBaseMaskBitmap v)
  else v.

Definition onLayout (changed : bool) (v : View) : View :=
  if changed then setInvalidated true v else v.

(** The framework assigns the new frame before it reports the change. *)
Definition resize (w h : Z) (v : View) : View :=
  let v' := mkView (colors v) (locations v) (direction v) (maskOpacity v)
                   (baseMaskBitmap v) (baseBitmapInvalidated v)
                   w h (calls v) in
  onSizeChanged w h (width v) (height v) v'.

(** *** Drawing *)

Definition opacityMatrix (m : Q) : ColorMatrix :=
  [ 1; 0; 0; 0; 0;
    0; 1; 0; 0; 0;
    0; 0; 1; 0; 0;
    0; 0; 0; m; 255 * (1 - m) ]%Q.

Definition dispatchDraw (v : View) : View * list CanvasOp :=
  if (width v <=? 0) || (height v <=? 0) then (v, [SuperDispatchDraw])
  else
    let v :=
      if baseBitmapInvalidated v
      then setInvalidated false (updateBaseMaskBitmap v)
      else v in
    match baseMaskBitmap v with
    | None => (v, [SuperDispatchDraw])
    | Some bitmap =>
        if Qle_bool (maskOpacity v) 0 then (v, [SuperDispatchDraw])
        else
          let colorFilter :=
            if negb (Qle_bool 1 (maskOpacity v))
            then Some (opacityMatrix (maskOpacity v))
            else None in
          (v, [ SaveLayer 0 0 (inject_Z (width v)) (inject_Z (height v));
                SuperDispatchDraw;
                DrawBitmapDstIn bitmap colorFilter;
                RestoreToCount ])
    end.

Definition draw (v : View) : View := fst (dispatchDraw v).

(** Alpha with which a [DrawBitmapDstIn] multiplies the content at a
    position: the bitmap's alpha, through the colour filter if any. *)
Definition effectiveAlpha (bitmap : Bitmap) (colorFilter : option ColorMatrix)
    (px py : Q) : Q :=
  let a := bitmapAlpha bitmap px py in
  match colorFilter with
  | Some m => filterAlpha m 255 255 255 a
  | None => a
  end.

Definition onDetachedFromWindow (v : View) : View :=
  setBitmap None (recycleOld v).




End Android.

(* ------------------------------------------------------------------ *)
(** ** Android view that bakes the intensity into the gradient stops *)

Module AndroidLegacy.
Import Graphics.

Record View : Type := mkView
  { colors : option (list Z);
    locations : option (list Q);
    direction : string;
    maskOpacity : Q;
    maskBitmap : option Bitmap;
    maskBitmapInvalidated : bool;
    width : Z;
    height : Z;
    calls : list ViewCall }.

Definition init : View :=
  mkView None None "top" 1 None true 0 0 [].

Definition call (c : ViewCall) (v : View) : View :=
  mkView (colors v) (locations v) (direction v) (maskOpacity v)
         (maskBitmap v) (maskBitmapInvalidated v) (width v) (height v)
         (c :: calls v).

Definition setInvalidated (b : bool) (v : View) : View :=
  mkView (colors v) (locations v) (direction v) (maskOpacity v)
         (maskBitmap v) b (width v) (height v) (calls v).

Definition setBitmap (b : option Bitmap) (v : View) : View :=
  mkView (colors v) (locations v) (direction v) (maskOpacity v)
         b (maskBitmapInvalidated v) (width v) (height v) (calls v).

Definition rebuilds (v : View) : nat := rebuildCount (calls v).

Definition setColors (colorArray : option (list Z)) (v : View) : View :=
  let v := mkView colorArray (locations v) (direction v) (maskOpacity v)
                  (maskBitmap v) (maskBitmapInvalidated v)
                  (width v) (height v) (calls v) in
  call Invalidate (setInvalidated true v).

Definition setLocations (locationArray : option (list Q)) (v : View)
  : View :=
  let v := mkView (colors v) locationArray (direction v) (maskOpacity v)
                  (maskBitmap v) (maskBitmapInvalidated v)
                  (width v) (height v) (calls v) in
  call Invalidate (setInvalidated true v).

Definition setDirection (dir : string) (v : View) : View :=
  let v := mkView (colors v) (locations v) dir (maskOpacity v)
                  (maskBitmap v) (maskBitmapInvalidated v)
                  (width v) (height v) (calls v) in
  call Invalidate (setInvalidated true v).

Definition setMaskOpacity (opacity : Q) (v : View) : View :=
  let v := mkView (colors v) (locations v) (direction v)
                  (coerceIn opacity 0 1)
                  (maskBitmap v) (maskBitmapInvalidated v)
                  (width v) (height v) (calls v) in
  call Invalidate (setInvalidated true v).

Definition getGradientCoordinates (v : View) : Q * Q * Q * Q :=
  let w := inject_Z (width v) in
  let h := inject_Z (height v) in
  if String.eqb (direction v) "top" then (0, 0, 0, h)%Q
  else if String.eqb (direction v) "bottom" then (0, h, 0, 0)%Q
  else if String.eqb (direction v) "left" then (0, 0, w, 0)%Q
  else if String.eqb (direction v) "right" then (w, 0, 0, 0)%Q
  else (0, 0, 0, h)%Q.

Definition recycleOld (v : View) : View :=
  match maskBitmap v with
  | Some old => call (Recycle old) v
  | None => v
  end.

(** [(255 + (originalAlpha - 255) * maskOpacity).toInt()] *)
Definition blendedAlpha (originalAlpha : Z) (maskOpacity : Q) : Z :=
  toInt (255 + (inject_Z originalAlpha - 255) * maskOpacity)%Q.

Definition effectiveColor (maskOpacity : Q) (originalColor : Z) : Z :=
  let originalAlpha := Color_alpha originalColor in
  Color_argb (blendedAlpha originalAlpha maskOpacity) 255 255 255.

Definition updateMaskBitmap (v : View) : View :=
  if (width v <=? 0) || (height v <=? 0) then v
  else
    let v := recycleOld v in
    let v := call (CreateBitmap (width v) (height v)) v in
    let bitmap := mkBitmap (width v) (height v) in
    match colors v, locations v with
    | Some currentColors, Some currentLocations =>
        if negb (Nat.eqb (List.length currentColors)
                         (List.length currentLocations))
           || Nat.eqb (List.length currentColors) 0
        then setBitmap (Some (bitmap (DrawColor Color_WHITE))) v
        else
          let effectiveColors :=
            map (effectiveColor (maskOpacity v)) currentColors in
          let '(startX, startY, endX, endY) := getGradientCoordinates v in
          let shader :=
            mkLinearGradient startX startY endX endY
                             effectiveColors currentLocations in
          setBitmap (Some (bitmap (DrawRectShader shader))) v
    | _, _ => setBitmap (Some (bitmap (DrawColor Color_WHITE))) v
    end.

Definition onSizeChanged (w h oldw oldh : Z) (v : View) : View :=
  if (0 <? w) && (0 <? h) then setInvalidated false (updateMaskBitmap v)
  else v.

Definition onLayout (changed : bool) (v : View) : View :=
  if changed then setInvalidated true v else v.

Definition resize (w h : Z) (v : View) : View :=
  let v' := mkView (colors v) (locations v) (direction v) (maskOpacity v)
                   (maskBitmap v) (maskBitmapInvalidated v)
                   w h (calls v) in
  onSizeChanged w h (width v) (height v) v'.

Definition dispatchDraw (v : View) : View * list CanvasOp :=
  if (width v <=? 0) || (height v <=? 0) then (v, [SuperDispatchDraw])
  else
    let v :=
      if maskBitmapInvalidated v
      then setInvalidated false (updateMaskBitmap v)
      else v in
    match maskBitmap v with
    | None => (v, [SuperDispatchDraw])
    | Some bitmap =>
        if Qle_bool (maskOpacity v) 0 then (v, [SuperDispatchDraw])
        else
          (v, [ SaveLayer 0 0 (inject_Z (width v)) (inject_Z (height v));
                SuperDispatchDraw;
                DrawBitmapDstIn bitmap None;
                RestoreToCount ])
    end.

Definition draw (v : View) : View := fst (dispatchDraw v).

End AndroidLegacy.

(* ------------------------------------------------------------------ *)
(** ** iOS view: a gradient layer under a solid black layer, as a mask *)

Module IOS.

Record CGColor : Type := mkColor
  { red : Q; green : Q; blue : Q; alpha : Q }.

Definition clear : CGColor := mkColor 0 0 0 0.
Definition black : CGColor := mkColor 0 0 0 1.

(** The two layers are objects the view owns; a composite mask refers to
    them, so a later change of a layer shows through the mask. *)
Inductive LayerRef : Type :=
| gradientMaskLayer
| solidMaskLayer.

Record CompositeMask : Type := mkMask
  { cm_frame : Q * Q; cm_sublayers : list LayerRef }.

Record View : Type := mkView
  { _colors : list CGColor;
    _locations : list Q;
    _direction : string;
    _maskOpacity : Q;
    (** gradientMaskLayer *)
    gl_frame : Q * Q;
    gl_colors : list CGColor;
    gl_locations : list Q;
    gl_startPoint : Q * Q;
    gl_endPoint : Q * Q;
    (** solidMaskLayer *)
    sl_frame : Q * Q;
    sl_backgroundColor : CGColor;
    sl_opacity : Q;
    (** the view's own layer and geometry *)
    layer_mask : option CompositeMask;
    bounds : Q * Q }.

Definition updateGradientDirection (v : View) : View :=
  let '(startPoint, endPoint) :=
    if String.eqb (_direction v) "top" then ((1 # 2, 0), (1 # 2, 1))%Q
    else if String.eqb (_direction v) "bottom"
         then ((1 # 2, 1), (1 # 2, 0))%Q
    else if String.eqb (_direction v) "left" then ((0, 1 # 2), (1, 1 # 2))%Q
    else if String.eqb (_direction v) "right"
         then ((1, 1 # 2), (0, 1 # 2))%Q
    else ((1 # 2, 0), (1 # 2, 1))%Q in
  mkView (_colors v) (_locations v) (_direction v) (_maskOpacity v)
         (gl_frame v) (gl_colors v) (gl_locations v) startPoint endPoint
         (sl_frame v) (sl_backgroundColor v) (sl_opacity v)
         (layer_mask v) (bounds v).

(** [init] followed by [setupView], for a view of the given bounds. *)
Definition setupView (b : Q * Q) : View :=
  let c := [clear; black] in
  let l := [0; 1]%Q in
  updateGradientDirection
    (mkView c l "top" 1
            (0, 0)%Q c l (1 # 2, 0)%Q (1 # 2, 1)%Q
            (0, 0)%Q black 0
            None b).

Definition updateGradientMask (v : View) : View :=
  let v :=
    mkView (_colors v) (_locations v) (_direction v) (_maskOpacity v)
           (bounds v) (_colors v) (_locations v)
           (gl_startPoint v) (gl_endPoint v)
           (bounds v) (sl_backgroundColor v) (sl_opacity v)
           (layer_mask v) (bounds v) in
  let v := updateGradientDirection v in
  let compositeMask :=
    mkMask (bounds v) [gradientMaskLayer; solidMaskLayer] in
  mkView (_colors v) (_locations v) (_direction v) (_maskOpacity v)
         (gl_frame v) (gl_colors v) (gl_locations v)
         (gl_startPoint v) (gl_endPoint v)
         (sl_frame v) (sl_backgroundColor v) (sl_opacity v)
         (Some compositeMask) (bounds v).

Definition updateMaskOpacity (v : View) : View :=
  mkView (_colors v) (_locations v) (_direction v) (_maskOpacity v)
         (gl_frame v) (gl_colors v) (gl_locations v)
         (gl_startPoint v) (gl_endPoint v)
         (sl_frame v) (sl_backgroundColor v) (1 - _maskOpacity v)%Q
         (layer_mask v) (bounds v).

Definition colorOfInt (colorValue : Z) : CGColor :=
  let intValue := Int32.unsigned colorValue in
  mkColor (inject_Z (Z.land (Z.shiftr intValue 16) 255) / 255)
          (inject_Z (Z.land (Z.shiftr intValue 8) 255) / 255)
          (inject_Z (Z.land intValue 255) / 255)
          (inject_Z (Z.land (Z.shiftr intValue 24) 255) / 255).

Definition setColors (colors : option (list Z)) (v : View) : View :=
  match colors with
  | None => v
  | Some colors =>
      updateGradientMask
        (mkView (map colorOfInt colors) (_locations v) (_direction v)
                (_maskOpacity v)
                (gl_frame v) (gl_colors v) (gl_locations v)
                (gl_startPoint v) (gl_endPoint v)
                (sl_frame v) (sl_backgroundColor v) (sl_opacity v)
                (layer_mask v) (bounds v))
  end.

Definition setLocations (locations : option (list Q)) (v : View) : View :=
  match locations with
  | None => v
  | Some locations =>
      updateGradientMask
        (mkView (_colors v) locations (_direction v) (_maskOpacity v)
                (gl_frame v) (gl_colors v) (gl_locations v)
                (gl_startPoint v) (gl_endPoint v)
                (sl_frame v) (sl_backgroundColor v) (sl_opacity v)
                (layer_mask v) (bounds v))
  end.

Definition setDirection (direction : string) (v : View) : View :=
  updateGradientMask
    (updateGradientDirection
       (mkView (_colors v) (_locations v) direction (_maskOpacity v)
               (gl_frame v) (gl_colors v) (gl_locations v)
               (gl_startPoint v) (gl_endPoint v)
               (sl_frame v) (sl_backgroundColor v) (sl_opacity v)
               (layer_mask v) (bounds v))).

Definition setMaskOpacity (opacity : Q) (v : View) : View :=
  updateMaskOpacity
    (mkView (_colors v) (_locations v) (_direction v) opacity
            (gl_frame v) (gl_colors v) (gl_locations v)
            (gl_startPoint v) (gl_endPoint v)
            (sl_frame v) (sl_backgroundColor v) (sl_opacity v)
            (layer_mask v) (bounds v)).

Definition layoutSubviews (v : View) : View := updateGradientMask v.

(** Start and end of the gradient axis in the layer's own coordinates:
    the unit points scaled by the layer's frame. *)
Definition resolvedAxis (v : View) : Q * Q * Q * Q :=
  let '(w, h) := gl_frame v in
  (fst (gl_startPoint v) * w, snd (gl_startPoint v) * h,
   fst (gl_endPoint v) * w, snd (gl_endPoint v) * h)%Q.

(** Rendering of the mask.  A layer's opacity is clamped to [0, 1]; a
    layer of opacity [o] and background alpha [c] covers with alpha
    [o * c]; sublayers are composited source-over in order. *)
Definition clamp01 (x : Q) : Q :=
  if Qle_bool x 0 then 0%Q else if Qle_bool 1 x then 1%Q else x.

Definition sourceOver (src dst : Q) : Q := (src + dst * (1 - src))%Q.

Definition layerAlpha (v : View) (g : Q) (l : LayerRef) : Q :=
  match l with
  | gradientMaskLayer => g
  | solidMaskLayer => (clamp01 (sl_opacity v) * alpha (sl_backgroundColor v))%Q
  end.

(** Alpha, on the 0..1 scale, of a composite mask at a position where the
    gradient layer has alpha [g]. *)
Definition compositeAlpha (v : View) (m : CompositeMask) (g : Q) : Q :=
  fold_left (fun below l => sourceOver (layerAlpha v g l) below)
            (cm_sublayers m) 0%Q.

(** The same on the 0..255 scale, for a gradient alpha byte value [g];
    without a mask the content is shown as it is. *)
Definition effectiveAlpha (v : View) (g : Q) : Q :=
  match layer_mask v with
  | Some m => (255 * compositeAlpha v m (g / 255))%Q
  | None => 255%Q
  end.

(** The calls the module definition and the layout pass make on a view. *)
Inductive Event : Type :=
| SetColors (colors : option (list Z))
| SetLocations (locations : option (list Q))
| SetDirection (direction : string)
| SetMaskOpacity (opacity : Q)
| LayoutSubviews.

Definition step (v : View) (e : Event) : View :=
  match e with
  | SetColors c => setColors c v
  | SetLocations l => setLocations l v
  | SetDirection d => setDirection d v
  | SetMaskOpacity o => setMaskOpacity o v
  | LayoutSubviews => layoutSubviews v
  end.

Definition run (es : list Event) (v : View) : View := fold_left step es v.

(** What every view keeps once it exists: the overlay is opaque black
    and its opacity is the complement of the mask opacity; and, once a
    mask is installed, it is the gradient layer under the overlay. *)
Definition overlayOk (v : View) : Prop :=
  sl_backgroundColor v = black /\ (sl_opacity v == 1 - _maskOpacity v)%Q.

Definition masked (v : View) : Prop :=
  exists frame,
    layer_mask v = Some (mkMask frame [gradientMaskLayer; solidMaskLayer]).

End IOS.

(* ------------------------------------------------------------------ *)
(** ** The specification's own formulas, for comparison with the code *)

Module Spec.

(** Section 4.4: [round(baseAlpha * intensity + 255 * (1 - intensity))],
    clamped to [0,255]; [round] is to the nearest integer. *)
Definition round (x : Q) : Z := Qfloor (x + (1 # 2))%Q.

Definition clamp255 (z : Z) : Z := Z.max 0 (Z.min 255 z).

Definition blend (baseAlpha : Z) (intensity : Q) : Z :=
  clamp255
    (round (inject_Z baseAlpha * intensity + 255 * (1 - intensity))%Q).

(** Section 4.2: the start and end points of each direction. *)
Definition resolve (direction : string) (w h : Q) : Q * Q * Q * Q :=
  if String.eqb direction "top" then (w / 2, 0, w / 2, h)%Q
  else if String.eqb direction "bottom" then (w / 2, h, w / 2, 0)%Q
  else if String.eqb direction "left" then (0, h / 2, w, h / 2)%Q
  else if String.eqb direction "right" then (w, h / 2, 0, h / 2)%Q
  else (w / 2, 0, w / 2, h)%Q.

(** Section 3: a missing location of index [i] among [n] stops defaults
    to [i / (n - 1)]. *)
Definition evenLocation (i n : Z) : Q := (inject_Z i / inject_Z (n - 1))%Q.

(** Section 4.1: an absent colour stands for transparent black, the
    explicit value [0x00000000]. *)
Definition explicitNull (c : option Z) : option Z :=
  match c with
  | None => Some 0
  | Some _ => c
  end.

End Spec.

(* ------------------------------------------------------------------ *)
(** ** Sample views *)

Module Samples.

(** Transparent to opaque black, as [processColor] hands the two colours to
    a native view. *)
Definition fade : list Z := [0; -16777216].

(** An Android view with the fade on a 10 x 20 surface, drawn once. *)
Definition androidDrawn : Android.View :=
  Android.draw
    (Android.resize 10 20
       (Android.setLocations (Some [0; 1]%Q)
          (Android.setColors (Some fade) Android.init))).

Definition legacyDrawn : AndroidLegacy.View :=
  AndroidLegacy.draw
    (AndroidLegacy.resize 10 20
       (AndroidLegacy.setLocations (Some [0; 1]%Q)
          (AndroidLegacy.setColors (Some fade) AndroidLegacy.init))).

(** An Android view with one half-transparent stop, [0x80000000], and the
    two locations [0, 1], on a 10 x 20 surface. *)
Definition oneStopTwoLocations : Android.View :=
  Android.resize 10 20
    (Android.setLocations (Some [0; 1]%Q)
       (Android.setColors (Some [-2147483648]) Android.init)).

(** The fade with only its first location. *)
Definition fadeOneLocation : Android.View :=
  Android.resize 10 20
    (Android.setLocations (Some [0]%Q)
       (Android.setColors (Some fade) Android.init)).

(** An iOS view of 100 x 100 points after its first layout pass. *)
Definition iosLaidOut : IOS.View :=
  IOS.layoutSubviews (IOS.setupView (100, 100)%Q).

End Samples.

(** Point-wise equality of two axes. *)
Definition axisEq (a b : Q * Q * Q * Q) : Prop :=
  let '(a0, a1, a2, a3) := a in
  let '(b0, b1, b2, b3) := b in
  (a0 == b0 /\ a1 == b1 /\ a2 == b2 /\ a3 == b3)%Q.

(** Normalised coordinate of a position along an axis. *)
Definition projectOn (a : Q * Q * Q * Q) (px py : Q) : Q :=
  let '(x0, y0, x1, y1) := a in Graphics.project x0 y0 x1 y1 px py.

(* ------------------------------------------------------------------ *)
(** ** The native module definitions: props and life cycle of a view *)

Module AndroidModule.

(** The four [Prop] handlers of [GradientMaskModule.definition]. *)
Definition propColors (colors : option (list Z)) (view : Android.View)
  : Android.View :=
  Android.setColors colors view.

Definition propLocations (locations : option (list Q)) (view : Android.View)
  : Android.View :=
  Android.setLocations locations view.

Definition propDirection (direction : option string) (view : Android.View)
  : Android.View :=
  Android.setDirection
    (match direction with Some d => d | None => "top" end) view.

Definition propMaskOpacity (opacity : option Q) (view : Android.View)
  : Android.View :=
  Android.setMaskOpacity
    (match opacity with Some o => o | None => 1%Q end) view.

(** Everything that reaches a view during its life: props from the module
    definition, and the framework's size, layout, draw and detach calls. *)
Inductive Event : Type :=
| Colors (colors : option (list Z))
| Locations (locations : option (list Q))
| Direction (direction : option string)
| MaskOpacity (opacity : option Q)
| SizeChanged (w h : Z)
| Layout (changed : bool)
| DispatchDraw
| Detached.

Definition step (v : Android.View) (e : Event) : Android.View :=
  match e with
  | Colors c => propColors c v
  | Locations l => propLocations l v
  | Direction d => propDirection d v
  | MaskOpacity o => propMaskOpacity o v
  | SizeChanged w h => Android.resize w h v
  | Layout changed => Android.onLayout changed v
  | DispatchDraw => Android.draw v
  | Detached => Android.onDetachedFromWindow v
  end.

Definition run (es : list Event) (v : Android.View) : Android.View :=
  fold_left step es v.



Definition createsPositive (c : Graphics.ViewCall) : Prop :=
  match c with
  | Graphics.CreateBitmap w h => 0 < w /\ 0 < h
  | _ => True
  end.


End AndroidModule.

Module IOSModule.

(** The four [Prop] handlers of the Swift [GradientMaskModule.definition],
    and the layout pass. *)
Definition propColors (colors : option (list Z)) (view : IOS.View)
  : IOS.View :=
  IOS.setColors colors view.

Definition propLocations (locations : option (list Q)) (view : IOS.View)
  : IOS.View :=
  IOS.setLocations locations view.

Definition propDirection (direction : option string) (view : IOS.View)
  : IOS.View :=
  IOS.setDirection (match direction with Some d => d | None => "top" end) view.

Definition propMaskOpacity (opacity : option Q) (view : IOS.View)
  : IOS.View :=
  IOS.setMaskOpacity (match opacity with Some o => o | None => 1%Q end) view.

Inductive Event : Type :=
| Colors (colors : option (list Z))
| Locations (locations : option (list Q))
| Direction (direction : option string)
| MaskOpacity (opacity : option Q)
| LayoutSubviews.

Definition step (v : IOS.View) (e : Event) : IOS.View :=
  match e with
  | Colors c => propColors c v
  | Locations l => propLocations l v
  | Direction d => propDirection d v
  | MaskOpacity o => propMaskOpacity o v
  | LayoutSubviews => IOS.layoutSubviews v
  end.

Definition run (es : list Event) (v : IOS.View) : IOS.View :=
  fold_left step es v.

End IOSModule.

(* ------------------------------------------------------------------ *)
(** ** The Android view with the exception of the gradient constructor *)

Module AndroidChecked.

(** The platform's [LinearGradient] constructor checks its arguments: it
    throws [IllegalArgumentException] for fewer than two colours, and when
    the positions do not have the length of the colours. *)
Definition constructorThrows (colors : list Z) (positions : list Q) : bool :=
  (List.length colors <? 2)%nat
  || negb (List.length colors =? List.length positions)%nat.

(** [updateBaseMaskBitmap] with that exception: [None] when the constructor
    throws at the line that builds the shader, otherwise the view as
    [Android.updateBaseMaskBitmap] leaves it. *)
Definition updateBaseMaskBitmap (v : Android.View) : option Android.View :=
  if (Android.width v <=? 0) || (Android.height v <=? 0) then Some v
  else
    match Android.colors v, Android.locations v with
    | Some currentColors, Some currentLocations =>
        if negb (Nat.eqb (List.length currentColors)
                         (List.length currentLocations))
           || Nat.eqb (List.length currentColors) 0
        then Some (Android.updateBaseMaskBitmap v)
        else if constructorThrows (map Android.maskColor currentColors)
                                  currentLocations
        then None
        else Some (Android.updateBaseMaskBitmap v)
    | _, _ => Some (Android.updateBaseMaskBitmap v)
    end.

(** [onSizeChanged] and [dispatchDraw] let the exception through. *)
Definition onSizeChanged (w h oldw oldh : Z) (v : Android.View)
  : option Android.View :=
  if (0 <? w) && (0 <? h) then
    match updateBaseMaskBitmap v with
    | Some v' => Some (Android.setInvalidated false v')
    | None => None
    end
  else Some v.

Definition dispatchDraw (v : Android.View)
  : option (Android.View * list Graphics.CanvasOp) :=
  if (Android.width v <=? 0) || (Android.height v <=? 0)
  then Some (Android.dispatchDraw v)
  else if Android.baseBitmapInvalidated v then
    match updateBaseMaskBitmap v with
    | Some _ => Some (Android.dispatchDraw v)
    | None => None
    end
  else Some (Android.dispatchDraw v).

(** A view of 10 x 20 that has just been given the single half-transparent
    stop [0x80000000] with its single location [0.5]. *)
Definition oneStopPending : Android.View :=
  Android.setLocations (Some [1 # 2]%Q)
    (Android.setColors (Some [-2147483648])
       (Android.resize 10 20 Android.init)).

End AndroidChecked.

(* ------------------------------------------------------------------ *)
(** * Properties *)

(** ** Colour codec *)

Example decode_half_black :
  Web.decode 2147483648 = Web.mkChannels 128 0 0 0.
Proof. reflexivity. Qed.

Example encode_half_black : Web.encode 128 0 0 0 = 2147483648.
Proof. reflexivity. Qed.

Example decode_white :
  Web.decode 4294967295 = Web.mkChannels 255 255 255 255.
Proof. reflexivity. Qed.

Lemma ToInt32_testbit z n : 0 <= n < 32 ->
  Z.testbit (JS.ToInt32 z) n = Z.testbit z n.
Proof.
  intros Hn. unfold JS.ToInt32, Int32.signed.
  destruct (z mod 2 ^ 32 <? 2 ^ 31).
  - apply Z.mod_pow2_bits_low; lia.
  - rewrite <- (Z.mod_pow2_bits_low (z mod 2 ^ 32 - 2 ^ 32) 32 n) by lia.
    replace (z mod 2 ^ 32 - 2 ^ 32) with (z mod 2 ^ 32 + (-1) * 2 ^ 32) by ring.
    rewrite Z.mod_add by lia. rewrite Z.mod_mod by lia.
    apply Z.mod_pow2_bits_low; lia.
Qed.

Lemma ToInt32_small z : - 2 ^ 31 <= z < 2 ^ 31 -> JS.ToInt32 z = z.
Proof.
  intros Hz. unfold JS.ToInt32, Int32.signed.
  destruct (Z.ltb_spec (z mod 2 ^ 32) (2 ^ 31)) as [H|H];
    Z.div_mod_to_equations; lia.
Qed.

Lemma byte_testbit y n : 0 <= n ->
  Z.testbit (JS.band y 255) n = Z.testbit (JS.ToInt32 y) n && (n <? 8).
Proof.
  intros Hn. unfold JS.band. rewrite (ToInt32_small 255) by lia.
  rewrite Z.land_spec. f_equal.
  change 255 with (Z.ones 8). 
  destruct (Z.ltb_spec n 8).
  - apply Z.ones_spec_low; lia.
  - apply Z.ones_spec_high; lia.
Qed.

Lemma byte_range y : 0 <= JS.band y 255 < 256.
Proof.
  unfold JS.band. rewrite (ToInt32_small 255) by lia.
  change 255 with (Z.ones 8). rewrite Z.land_ones by lia.
  apply Z.mod_pos_bound. lia.
Qed.

Lemma shl_testbit a k n : 0 <= a < 256 -> 0 <= k < 32 -> k mod 32 = k -> 0 <= n < 32 ->
  Z.testbit (JS.shl a k) n = (k <=? n) && Z.testbit a (n - k).
Proof.
  intros Ha Hk Hm Hn. unfold JS.shl. rewrite Hm.
  rewrite ToInt32_testbit by lia. rewrite (ToInt32_small a) by lia.
  destruct (Z.leb_spec k n).
  - rewrite Z.shiftl_spec_high by lia. reflexivity.
  - rewrite Z.shiftl_spec_low by lia. reflexivity.
Qed.

Lemma bor_testbit a b n : 0 <= n < 32 ->
  Z.testbit (JS.bor a b) n = Z.testbit a n || Z.testbit b n.
Proof.
  intros Hn. unfold JS.bor. rewrite Z.lor_spec, !ToInt32_testbit by lia. reflexivity.
Qed.

Lemma channel_testbit x k n : 0 <= x < 2 ^ 32 -> 0 <= k <= 24 -> k mod 32 = k -> 0 <= n ->
  Z.testbit (JS.band (JS.sar x k) 255) n = (n <? 8) && Z.testbit x (n + k).
Proof.
  intros Hx Hk Hm Hn. rewrite byte_testbit by lia.
  destruct (Z.ltb_spec n 8); [|apply andb_false_r].
  rewrite andb_true_r. simpl. rewrite ToInt32_testbit by lia.
  unfold JS.sar. rewrite Hm, Z.shiftr_spec by lia.
  apply ToInt32_testbit. lia.
Qed.

Lemma ushr0 x : 0 <= x < 2 ^ 32 -> JS.ushr x 0 = x.
Proof.
  intros Hx. unfold JS.ushr, JS.ToUint32, Int32.unsigned. change (0 mod 32) with 0.
  rewrite Z.shiftr_0_r. apply Z.mod_small. lia.
Qed.

(** C9. For every unsigned 32-bit value [x], unpacking [x] into its alpha,
    red, green and blue bytes with the shifts and masks of
    [adjustColorsForOpacity] / [colorToRgba] and repacking them with the
    shift-and-or expression of [adjustColorsForOpacity] gives [x] back. *)
Theorem encode_decode (x : Z) :
  0 <= x < 2 ^ 32 -> Web.encode_channels (Web.decode x) = x.
Proof.
  intros Hx. unfold Web.encode_channels, Web.decode, Web.encode;
    cbn [Web.ch_a Web.ch_r Web.ch_g Web.ch_b].
  rewrite (ushr0 x Hx).
  replace (JS.band x 255) with (JS.band (JS.sar x 0) 255).
  2:{ unfold JS.band, JS.sar. change (0 mod 32) with 0. rewrite Z.shiftr_0_r.
      f_equal. apply ToInt32_small. unfold JS.ToInt32, Int32.signed.
      destruct (Z.ltb_spec (x mod 2 ^ 32) (2 ^ 31)); Z.div_mod_to_equations; lia. }
  unfold JS.ushr at 1. change (0 mod 32) with 0. rewrite Z.shiftr_0_r. unfold JS.ToUint32, Int32.unsigned.
  apply Z.bits_inj'. intros n Hn.
  rewrite Z.testbit_mod_pow2 by lia.
  destruct (Z.ltb_spec n 32) as [Hlt|Hge]; cbn [andb].
  - rewrite !bor_testbit by lia.
    rewrite !shl_testbit by (first [apply byte_range | reflexivity | lia]).
    assert (Hcase : n < 8 \/ 8 <= n < 16 \/ 16 <= n < 24 \/ 24 <= n) by lia.
    destruct Hcase as [H|[H|[H|H]]];
      repeat match goal with
        | |- context [?k <=? n] =>
            first [ rewrite (proj2 (Z.leb_le k n)) by lia
                  | rewrite (proj2 (Z.leb_gt k n)) by lia ]
        end; cbn [andb orb];
      rewrite !channel_testbit by (first [reflexivity | lia]);
      repeat match goal with
        | |- context [?m <? 8] =>
            first [ rewrite (proj2 (Z.ltb_lt m 8)) by lia
                  | rewrite (proj2 (Z.ltb_ge m 8)) by lia ]
        end; cbn [andb orb]; rewrite ?orb_false_r; f_equal; ring.
  - symmetry. apply Z.bits_above_log2; [lia|].
    destruct (Z.eq_dec x 0) as [->|]; [simpl; lia|].
    apply Z.log2_lt_pow2; [lia|].
    pose proof (Z.pow_le_mono_r 2 32 n); lia.
Qed.

Lemma encode_decode_witness :
  0 <= 2155905152 < 2 ^ 32 /\
  Web.encode_channels (Web.decode 2155905152) = 2155905152.
Proof. split; [lia | apply (encode_decode 2155905152); lia]. Defined.

(* ------------------------------------------------------------------ *)
(** ** Intensity blend *)

Lemma byte_as_Q (av : Z) : 0 <= av <= 255 -> (0 <= inject_Z av <= 255)%Q.
Proof.
  intros [H0 H1]. split.
  - change 0%Q with (inject_Z 0). rewrite <- Zle_Qle. exact H0.
  - change 255%Q with (inject_Z 255). rewrite <- Zle_Qle. exact H1.
Qed.

Lemma affine_range (a m : Q) :
  (0 <= a <= 255 -> 0 <= m <= 1 -> 0 <= a * m + 255 * (1 - m) <= 255)%Q.
Proof. intros Ha Hm. split; nra. Qed.

Lemma round_range (x : Q) : (0 <= x <= 255)%Q -> 0 <= Spec.round x <= 255.
Proof.
  intros [H0 H1]. unfold Spec.round. split.
  - change 0 with (Qfloor 0). apply Qfloor_resp_le. lra.
  - change 255 with (Qfloor (255 + (1 # 2))). apply Qfloor_resp_le. lra.
Qed.

Lemma blend_unclamped (av : Z) (m : Q) :
  0 <= av <= 255 -> (0 <= m <= 1)%Q ->
  Spec.blend av m = Spec.round (inject_Z av * m + 255 * (1 - m))%Q.
Proof.
  intros Hav Hm. unfold Spec.blend, Spec.clamp255.
  pose proof (round_range _ (affine_range _ _ (byte_as_Q av Hav) Hm)).
  lia.
Qed.

(** The web blend of a stop's alpha byte is the specified one. *)
Lemma web_blend_is_spec_blend (av : Z) (m : Q) :
  0 <= av <= 255 -> (0 <= m <= 1)%Q ->
  Web.adjustedAlphaByte av m = Spec.blend av m.
Proof.
  intros Hav Hm. rewrite blend_unclamped by assumption.
  unfold Web.adjustedAlphaByte, JS.Math_round, Spec.round.
  apply Qfloor_comp. field.
Qed.

(** The colour matrix installed at draw time is the affine map of the
    specification, before any rounding. *)
Lemma matrix_alpha_affine (m r g b a : Q) :
  (Graphics.filterAlpha (Android.opacityMatrix m) r g b a
   == a * m + 255 * (1 - m))%Q.
Proof. unfold Graphics.filterAlpha, Android.opacityMatrix. simpl. ring. Qed.

(** The baked blend drops the fraction instead of rounding. *)
Lemma legacy_blend_floor (av : Z) (m : Q) :
  0 <= av <= 255 -> (0 <= m <= 1)%Q ->
  AndroidLegacy.blendedAlpha av m
  = Qfloor (inject_Z av * m + 255 * (1 - m))%Q.
Proof.
  intros Hav Hm. unfold AndroidLegacy.blendedAlpha, Graphics.toInt.
  pose proof (affine_range _ _ (byte_as_Q av Hav) Hm) as [H0 _].
  assert (E : (255 + (inject_Z av - 255) * m
               == inject_Z av * m + 255 * (1 - m))%Q) by ring.
  assert (Hle : Qle_bool 0 (255 + (inject_Z av - 255) * m) = true).
  { apply Qle_bool_iff. rewrite E. exact H0. }
  rewrite Hle. apply Qfloor_comp. exact E.
Qed.

Lemma blend_endpoints (av : Z) :
  0 <= av <= 255 ->
  Spec.blend av 1 = av /\ Spec.blend av 0 = 255 /\
  Web.adjustedAlphaByte av 1 = av /\ Web.adjustedAlphaByte av 0 = 255 /\
  AndroidLegacy.blendedAlpha av 1 = av /\
  AndroidLegacy.blendedAlpha av 0 = 255.
Proof.
  intros Hav.
  assert (H1 : Spec.blend av 1 = av).
  { rewrite blend_unclamped by (lia || lra). unfold Spec.round.
    rewrite (Qfloor_comp _ (inject_Z av + (1 # 2))) by ring.
    unfold Qfloor. simpl. Z.div_mod_to_equations; lia. }
  assert (H0 : Spec.blend av 0 = 255).
  { rewrite blend_unclamped by (lia || lra). unfold Spec.round.
    rewrite (Qfloor_comp _ (255 + (1 # 2))) by ring. reflexivity. }
  repeat split; try assumption.
  - rewrite web_blend_is_spec_blend by (lia || lra). exact H1.
  - rewrite web_blend_is_spec_blend by (lia || lra). exact H0.
  - rewrite legacy_blend_floor by (lia || lra).
    rewrite (Qfloor_comp _ (inject_Z av)) by ring. apply Qfloor_Z.
  - rewrite legacy_blend_floor by (lia || lra).
    rewrite (Qfloor_comp _ 255) by ring. reflexivity.
Qed.

(** C1. The blend of a stop's alpha is specified as
    [round(baseAlpha * intensity + 255 * (1 - intensity))].  The view that
    bakes the intensity into its stops ([updateMaskBitmap]) converts with
    [toInt()]: for a transparent stop at intensity one half it writes alpha
    127 into the gradient, where the formula, and the web blend, give 128. *)
Theorem legacy_blend_truncates_half :
  AndroidLegacy.blendedAlpha 0 (1 # 2) = 127 /\
  Graphics.Color_alpha (AndroidLegacy.effectiveColor (1 # 2) 0) = 127 /\
  Spec.blend 0 (1 # 2) = 128 /\
  Web.adjustedAlphaByte 0 (1 # 2) = 128.
Proof. repeat split; reflexivity. Qed.

(* ------------------------------------------------------------------ *)
(** ** The iOS composite mask *)

Lemma clamp01_inside (x y : Q) :
  (x == y)%Q -> (0 <= y <= 1)%Q -> (IOS.clamp01 x == y)%Q.
Proof.
  intros E [H0 H1]. unfold IOS.clamp01.
  destruct (Qle_bool x 0) eqn:Hx0.
  - apply Qle_bool_iff in Hx0. lra.
  - destruct (Qle_bool 1 x) eqn:Hx1.
    + apply Qle_bool_iff in Hx1. lra.
    + exact E.
Qed.


Lemma updateGradientDirection_frame (v : IOS.View) :
  IOS.sl_backgroundColor (IOS.updateGradientDirection v)
  = IOS.sl_backgroundColor v /\
  IOS.sl_opacity (IOS.updateGradientDirection v) = IOS.sl_opacity v /\
  IOS._maskOpacity (IOS.updateGradientDirection v) = IOS._maskOpacity v /\
  IOS.layer_mask (IOS.updateGradientDirection v) = IOS.layer_mask v /\
  IOS.bounds (IOS.updateGradientDirection v) = IOS.bounds v.
Proof.
  unfold IOS.updateGradientDirection.
  repeat match goal with |- context [if ?c then _ else _] => destruct c end;
    repeat split.
Qed.

Lemma updateGradientMask_overlay (v : IOS.View) :
  IOS.overlayOk v -> IOS.overlayOk (IOS.updateGradientMask v).
Proof.
  intros [Hc Ho]. unfold IOS.updateGradientMask, IOS.overlayOk. cbn.
  match goal with
  | |- context [IOS.updateGradientDirection ?w] =>
      destruct (updateGradientDirection_frame w) as (E1 & E2 & E3 & _)
  end.
  rewrite E1, E2, E3. cbn. split; assumption.
Qed.

Lemma updateGradientMask_masked (v : IOS.View) :
  IOS.masked (IOS.updateGradientMask v).
Proof. unfold IOS.masked, IOS.updateGradientMask. cbn. eexists. reflexivity. Qed.

Lemma step_overlay (v : IOS.View) (e : IOS.Event) :
  IOS.overlayOk v -> IOS.overlayOk (IOS.step v e).
Proof.
  intros H. destruct e as [c|l|d|o|]; cbn [IOS.step].
  - destruct c; [apply updateGradientMask_overlay|]; exact H.
  - destruct l; [apply updateGradientMask_overlay|]; exact H.
  - apply updateGradientMask_overlay. destruct H as [Hc Ho].
    unfold IOS.setDirection, IOS.overlayOk.
    match goal with
    | |- context [IOS.updateGradientDirection ?w] =>
        destruct (updateGradientDirection_frame w) as (E1 & E2 & E3 & _)
    end.
    rewrite E1, E2, E3. cbn. split; assumption.
  - destruct H as [Hc _]. split; [exact Hc | cbn; reflexivity].
  - apply updateGradientMask_overlay. exact H.
Qed.

(** Every view reached from [setupView] keeps the overlay invariant. *)
Lemma run_overlay (es : list IOS.Event) (v : IOS.View) :
  IOS.overlayOk v -> IOS.overlayOk (IOS.run es v).
Proof.
  revert v. induction es as [|e es IH]; intros v H; cbn.
  - exact H.
  - apply IH, step_overlay, H.
Qed.

Lemma step_masked (v : IOS.View) (e : IOS.Event) :
  IOS.masked v -> IOS.masked (IOS.step v e).
Proof.
  intros H. destruct e as [c|l|d|o|]; cbn [IOS.step].
  - destruct c; [apply updateGradientMask_masked | exact H].
  - destruct l; [apply updateGradientMask_masked | exact H].
  - apply updateGradientMask_masked.
  - exact H.
  - apply updateGradientMask_masked.
Qed.

(** After its first layout pass a view has the composite mask for good. *)
Lemma run_masked (es : list IOS.Event) (v : IOS.View) :
  IOS.masked (IOS.run es (IOS.layoutSubviews v)).
Proof.
  assert (H : IOS.masked (IOS.layoutSubviews v))
    by apply updateGradientMask_masked.
  revert H. generalize (IOS.layoutSubviews v). clear v.
  induction es as [|e es IH]; intros v H; cbn.
  - exact H.
  - apply IH, step_masked, H.
Qed.

Lemma setupView_overlay (b : Q * Q) : IOS.overlayOk (IOS.setupView b).
Proof. split; [reflexivity | cbn; reflexivity]. Qed.

(** C10. On iOS the mask is an opaque black layer of opacity
    [1 - maskOpacity] composited source-over the gradient layer.  For a
    gradient alpha [g] (0..255 scale) and a mask opacity [m] in [0,1] the
    composite has alpha [g + (255 - g) * (1 - m)], which is the value
    [g * m + 255 * (1 - m)] of the alpha row of the colour matrix that the
    Android view installs for the same opacity. *)
Theorem ios_composite_equals_android_matrix (v : IOS.View) (g r gr b : Q) :
  IOS.overlayOk v -> IOS.masked v -> (0 <= IOS._maskOpacity v <= 1)%Q ->
  (IOS.effectiveAlpha v g == g + (255 - g) * (1 - IOS._maskOpacity v))%Q /\
  (IOS.effectiveAlpha v g
   == Graphics.filterAlpha (Android.opacityMatrix (IOS._maskOpacity v))
                           r gr b g)%Q.
Proof.
  intros [Hc Ho] [frame Hm] Hr.
  assert (E : (IOS.effectiveAlpha v g
               == g + (255 - g) * (1 - IOS._maskOpacity v))%Q).
  { unfold IOS.effectiveAlpha. rewrite Hm.
    unfold IOS.compositeAlpha, IOS.layerAlpha, IOS.sourceOver. cbn.
    rewrite Hc. cbn [IOS.alpha IOS.black].
    rewrite (clamp01_inside _ (1 - IOS._maskOpacity v) Ho) by lra.
    field. }
  split; [exact E|].
  rewrite E, matrix_alpha_affine. ring.
Qed.

Lemma ios_composite_equals_android_matrix_witness :
  (IOS.effectiveAlpha
     (IOS.setMaskOpacity (1 # 4)
        (IOS.layoutSubviews (IOS.setupView (100, 100)%Q))) 128
   == 128 + (255 - 128) * (1 - (1 # 4)))%Q /\
  (IOS.effectiveAlpha
     (IOS.setMaskOpacity (1 # 4)
        (IOS.layoutSubviews (IOS.setupView (100, 100)%Q))) 128
   == Graphics.filterAlpha (Android.opacityMatrix (1 # 4)) 255 255 255 128)%Q.
Proof.
  apply (ios_composite_equals_android_matrix
           (IOS.setMaskOpacity (1 # 4)
              (IOS.layoutSubviews (IOS.setupView (100, 100)%Q)))
           128 255 255 255).
  - split; [reflexivity | cbn; reflexivity].
  - exists (100, 100)%Q. reflexivity.
  - cbn. split; discriminate.
Defined.

(* ------------------------------------------------------------------ *)
(** ** Direction resolver *)

Example android_left_axis :
  Android.getGradientCoordinates
    (Android.resize 10 20 (Android.setDirection "left" Android.init))
  = (0, 0, inject_Z 10, 0)%Q.
Proof. reflexivity. Qed.

Lemma project_same (x0 y0 x1 y1 x0' y0' x1' y1' px py : Q) :
  ((px - x0) * (x1 - x0) + (py - y0) * (y1 - y0)
   == (px - x0') * (x1' - x0') + (py - y0') * (y1' - y0'))%Q ->
  ((x1 - x0) * (x1 - x0) + (y1 - y0) * (y1 - y0)
   == (x1' - x0') * (x1' - x0') + (y1' - y0') * (y1' - y0'))%Q ->
  (Graphics.project x0 y0 x1 y1 px py
   == Graphics.project x0' y0' x1' y1' px py)%Q.
Proof.
  intros Hn Hd. unfold Graphics.project, Qdiv. rewrite Hn, Hd. reflexivity.
Qed.

(** C5 (as the code has it). The Android resolver anchors the axis at the
    left or top edge of the surface: top is (0,0)->(0,h), bottom
    (0,h)->(0,0), left (0,0)->(w,0), right (w,0)->(0,0), and any other
    direction is resolved as top.  Every position has the same normalised
    coordinate along that axis as along the centred axis (w/2,0)->(w/2,h),
    (w/2,h)->(w/2,0), (0,h/2)->(w,h/2), (w,h/2)->(0,h/2) of the same
    direction.  The iOS resolver's unit points, scaled by the layer's
    frame, are the centred axis itself. *)
Theorem resolver_axes (v : Android.View) (u : IOS.View) :
  let d := Android.direction v in
  let w := inject_Z (Android.width v) in
  let h := inject_Z (Android.height v) in
  (Android.getGradientCoordinates v
   = if String.eqb d "top" then (0, 0, 0, h)%Q
     else if String.eqb d "bottom" then (0, h, 0, 0)%Q
     else if String.eqb d "left" then (0, 0, w, 0)%Q
     else if String.eqb d "right" then (w, 0, 0, 0)%Q
     else (0, 0, 0, h)%Q) /\
  (forall px py : Q,
      (projectOn (Android.getGradientCoordinates v) px py
       == projectOn (Spec.resolve d w h) px py)%Q) /\
  axisEq (IOS.resolvedAxis (IOS.updateGradientMask u))
         (Spec.resolve (IOS._direction u)
                       (fst (IOS.bounds u)) (snd (IOS.bounds u))).
Proof.
  intros d w h. split; [reflexivity|]. split.
  - intros px py.
    unfold Android.getGradientCoordinates, Spec.resolve, projectOn.
    fold d w h.
    destruct (String.eqb d "top"); [apply project_same; field|].
    destruct (String.eqb d "bottom"); [apply project_same; field|].
    destruct (String.eqb d "left"); [apply project_same; field|].
    destruct (String.eqb d "right"); apply project_same; field.
  - unfold IOS.resolvedAxis, IOS.updateGradientMask, IOS.updateGradientDirection,
      Spec.resolve, axisEq.
    cbn [IOS._direction IOS._colors IOS._locations IOS._maskOpacity
         IOS.gl_frame IOS.bounds].
    destruct (IOS.bounds u) as [bw bh]. cbn [fst snd].
    destruct (String.eqb (IOS._direction u) "top");
      [cbn; repeat split; field|].
    destruct (String.eqb (IOS._direction u) "bottom");
      [cbn; repeat split; field|].
    destruct (String.eqb (IOS._direction u) "left");
      [cbn; repeat split; field|].
    destruct (String.eqb (IOS._direction u) "right");
      cbn; repeat split; field.
Qed.

(** C5, the claim as written fails on Android: for top on a 10 x 20
    surface the resolver returns (0,0,0,20), not (5,0,5,20), and for left
    (0,0,10,0), not (0,10,10,10). *)
Lemma android_axis_not_centred :
  Android.getGradientCoordinates (Android.resize 10 20 Android.init)
  = (0, 0, 0, 20)%Q /\
  ~ axisEq (Android.getGradientCoordinates (Android.resize 10 20 Android.init))
           (5, 0, 5, 20)%Q /\
  ~ axisEq (Android.getGradientCoordinates
              (Android.resize 10 20 (Android.setDirection "left" Android.init)))
           (0, 10, 10, 10)%Q.
Proof.
  split; [reflexivity|]. split; cbn; intros (H0 & H1 & H2 & H3); discriminate.
Qed.

(* ------------------------------------------------------------------ *)
(** ** Mask cache of the Android view *)

Ltac split_ifs :=
  repeat match goal with
    | |- context [if ?c then _ else _] => destruct c eqn:?
    | |- context [match ?c with Some _ => _ | None => _ end] => destruct c eqn:?
    end.

Lemma updateBase_fields (v : Android.View) :
  Android.colors (Android.updateBaseMaskBitmap v) = Android.colors v /\
  Android.locations (Android.updateBaseMaskBitmap v) = Android.locations v /\
  Android.direction (Android.updateBaseMaskBitmap v) = Android.direction v /\
  Android.maskOpacity (Android.updateBaseMaskBitmap v) = Android.maskOpacity v /\
  Android.width (Android.updateBaseMaskBitmap v) = Android.width v /\
  Android.height (Android.updateBaseMaskBitmap v) = Android.height v /\
  Android.baseBitmapInvalidated (Android.updateBaseMaskBitmap v)
  = Android.baseBitmapInvalidated v.
Proof.
  unfold Android.updateBaseMaskBitmap, Android.recycleOld,
    Android.getGradientCoordinates.
  split_ifs; cbn; repeat split; reflexivity.
Qed.

Lemma updateBase_rebuilds (v : Android.View) :
  Android.rebuilds (Android.updateBaseMaskBitmap v)
  = if (Android.width v <=? 0) || (Android.height v <=? 0)
    then Android.rebuilds v else S (Android.rebuilds v).
Proof.
  unfold Android.updateBaseMaskBitmap, Android.recycleOld,
    Android.getGradientCoordinates, Android.rebuilds.
  split_ifs; cbn; reflexivity.
Qed.

Lemma updateBase_has_bitmap (v : Android.View) :
  (Android.width v <=? 0) || (Android.height v <=? 0) = false ->
  Android.baseMaskBitmap (Android.updateBaseMaskBitmap v) <> None.
Proof.
  intros H. unfold Android.updateBaseMaskBitmap. rewrite H.
  unfold Android.recycleOld, Android.getGradientCoordinates.
  split_ifs; cbn; discriminate.
Qed.

(** What one draw pass does to the cache. *)
Lemma draw_cache (v : Android.View) :
  Android.key (Android.draw v) = Android.key v /\
  Android.maskOpacity (Android.draw v) = Android.maskOpacity v /\
  Android.rebuilds (Android.draw v)
  = (if negb ((Android.width v <=? 0) || (Android.height v <=? 0))
        && Android.baseBitmapInvalidated v
     then S (Android.rebuilds v) else Android.rebuilds v) /\
  Android.baseBitmapInvalidated (Android.draw v)
  = (if (Android.width v <=? 0) || (Android.height v <=? 0)
     then Android.baseBitmapInvalidated v else false) /\
  ((Android.width v <=? 0) || (Android.height v <=? 0) = true \/
   Android.baseBitmapInvalidated v = false ->
   Android.baseMaskBitmap (Android.draw v) = Android.baseMaskBitmap v).
Proof.
  unfold Android.draw, Android.dispatchDraw, Android.key.
  destruct ((Android.width v <=? 0) || (Android.height v <=? 0)) eqn:Hsz;
    cbn [negb andb fst].
  - repeat split; reflexivity.
  - destruct (Android.baseBitmapInvalidated v) eqn:Hinv.
    + destruct (updateBase_fields v) as (E1 & E2 & E3 & E4 & E5 & E6 & E7).
      pose proof (updateBase_rebuilds v) as Er. rewrite Hsz in Er.
      split_ifs; cbn; rewrite ?E1, ?E2, ?E3, ?E4, ?E5, ?E6;
        repeat split; try reflexivity; try exact Er;
        intros [?|?]; discriminate.
    + split_ifs; cbn; repeat split; auto.
Qed.

Lemma setMaskOpacity_cache (o : Q) (v : Android.View) :
  Android.key (Android.setMaskOpacity o v) = Android.key v /\
  Android.baseMaskBitmap (Android.setMaskOpacity o v)
  = Android.baseMaskBitmap v /\
  Android.baseBitmapInvalidated (Android.setMaskOpacity o v)
  = Android.baseBitmapInvalidated v /\
  Android.rebuilds (Android.setMaskOpacity o v) = Android.rebuilds v.
Proof.
  unfold Android.setMaskOpacity. split_ifs; cbn; repeat split; reflexivity.
Qed.


(** With the cache settled and an opacity strictly between 0 and 1, a draw
    paints the cached bitmap itself through the opacity matrix: the mask
    alpha is the affine image of the cached alpha. *)
Lemma draw_applies_matrix (v : Android.View) (b : Graphics.Bitmap) :
  0 < Android.width v -> 0 < Android.height v ->
  Android.baseBitmapInvalidated v = false ->
  Android.baseMaskBitmap v = Some b ->
  (0 < Android.maskOpacity v)%Q -> (Android.maskOpacity v < 1)%Q ->
  snd (Android.dispatchDraw v)
  = [ Graphics.SaveLayer 0 0 (inject_Z (Android.width v))
                         (inject_Z (Android.height v));
      Graphics.SuperDispatchDraw;
      Graphics.DrawBitmapDstIn
        b (Some (Android.opacityMatrix (Android.maskOpacity v)));
      Graphics.RestoreToCount ] /\
  forall px py : Q,
    (Android.effectiveAlpha
       b (Some (Android.opacityMatrix (Android.maskOpacity v))) px py
     == Graphics.bitmapAlpha b px py * Android.maskOpacity v
        + 255 * (1 - Android.maskOpacity v))%Q.
Proof.
  intros Hw Hh Hf Hb H0 H1. split.
  - unfold Android.dispatchDraw.
    rewrite (proj2 (orb_false_iff _ _)
               (conj (proj2 (Z.leb_gt _ _) Hw) (proj2 (Z.leb_gt _ _) Hh))).
    rewrite Hf, Hb.
    destruct (Qle_bool (Android.maskOpacity v) 0) eqn:E0;
      [apply Qle_bool_iff in E0; lra|].
    destruct (Qle_bool 1 (Android.maskOpacity v)) eqn:E1;
      [apply Qle_bool_iff in E1; lra|].
    reflexivity.
  - intros px py. unfold Android.effectiveAlpha. apply matrix_alpha_affine.
Qed.

Lemma key_size (v v' : Android.View) :
  Android.key v' = Android.key v ->
  Android.width v' = Android.width v /\ Android.height v' = Android.height v.
Proof. unfold Android.key. intros H. injection H. auto. Qed.












Lemma positive_size (v : Android.View) :
  0 < Android.width v -> 0 < Android.height v ->
  (Android.width v <=? 0) || (Android.height v <=? 0) = false.
Proof.
  intros Hw Hh. apply orb_false_iff. split; apply Z.leb_gt; assumption.
Qed.





(* ------------------------------------------------------------------ *)
(** ** Compositor at intensity zero *)








(* ------------------------------------------------------------------ *)
(** ** Gradient field builder *)

Lemma signed_mod (x : Z) : Int32.signed x mod 2 ^ 32 = x mod 2 ^ 32.
Proof.
  unfold Int32.signed. destruct (x mod 2 ^ 32 <? 2 ^ 31).
  - apply Z.mod_mod. lia.
  - replace (x mod 2 ^ 32 - 2 ^ 32) with (x mod 2 ^ 32 + (-1) * 2 ^ 32) by ring.
    rewrite Z.mod_add by lia. apply Z.mod_mod. lia.
Qed.

Lemma Color_alpha_range (c : Z) : 0 <= Graphics.Color_alpha c <= 255.
Proof.
  unfold Graphics.Color_alpha, Int32.unsigned.
  rewrite Z.shiftr_div_pow2 by lia.
  pose proof (Z.mod_pos_bound c (2 ^ 32) ltac:(lia)).
  Z.div_mod_to_equations; lia.
Qed.

Lemma Color_alpha_argb (a : Z) :
  0 <= a <= 255 ->
  Graphics.Color_alpha (Graphics.Color_argb a 255 255 255) = a.
Proof.
  intros Ha. unfold Graphics.Color_alpha, Graphics.Color_argb, Int32.unsigned.
  rewrite signed_mod.
  rewrite <- Z.land_ones by lia.
  rewrite Z.shiftr_land, !Z.shiftr_lor, Z.shiftr_shiftl_l by lia.
  change (24 - 24) with 0. rewrite Z.shiftl_0_r.
  change (Z.shiftr (Z.shiftl 255 16) 24) with 0.
  change (Z.shiftr (Z.shiftl 255 8) 24) with 0.
  change (Z.shiftr 255 24) with 0.
  change (Z.shiftr (Z.ones 32) 24) with (Z.ones 8).
  rewrite !Z.lor_0_r, Z.land_ones by lia.
  apply Z.mod_small. lia.
Qed.

Lemma maskColor_alpha (c : Z) :
  Graphics.Color_alpha (Android.maskColor c) = Graphics.Color_alpha c.
Proof.
  unfold Android.maskColor. apply Color_alpha_argb, Color_alpha_range.
Qed.

(** A ramp with one stop is flat. *)
Lemma ramp_single (a l t : Q) : Graphics.ramp [(a, l)] t = a.
Proof. unfold Graphics.ramp. destruct (Qle_bool t l); reflexivity. Qed.

Example half_transparent_alpha : Graphics.Color_alpha (-2147483648) = 128.
Proof. reflexivity. Qed.

Lemma single_colour_throws (v : Android.View) (c : Z) (l : Q) :
  Android.colors v = Some [c] -> Android.locations v = Some [l] ->
  0 < Android.width v -> 0 < Android.height v ->
  AndroidChecked.updateBaseMaskBitmap v = None.
Proof.
  intros Hc Hl Hw Hh. unfold AndroidChecked.updateBaseMaskBitmap.
  rewrite (positive_size v Hw Hh), Hc, Hl. reflexivity.
Qed.

(** C6. One stop must give a uniform field at the stop's alpha, and the
    build must not throw.  Given the single stop [0x80000000] with the
    single location [0.5] on a 10 x 20 surface, the guard of
    [updateBaseMaskBitmap] lets the one colour through to the gradient
    constructor, which throws: the rebuild, the size change and the draw
    all fail, and no field is built.  With the two locations [0, 1] the
    same stop gives an opaque white bitmap, alpha 255 and not 128. *)
Theorem single_stop_build_throws :
  Android.colors AndroidChecked.oneStopPending = Some [-2147483648] /\
  Android.locations AndroidChecked.oneStopPending = Some [1 # 2]%Q /\
  Graphics.Color_alpha (-2147483648) = 128 /\
  AndroidChecked.updateBaseMaskBitmap AndroidChecked.oneStopPending = None /\
  AndroidChecked.dispatchDraw AndroidChecked.oneStopPending = None /\
  AndroidChecked.onSizeChanged 30 40 10 20
    (Android.mkView (Some [-2147483648]) (Some [1 # 2]%Q) "top" 1 None true
                    30 40 [])
  = None /\
  option_map
    (fun b => Graphics.bitmapAlpha b 0 0)
    (Android.baseMaskBitmap Samples.oneStopTwoLocations)
  = Some 255%Q.
Proof. repeat split; reflexivity. Qed.

(** The stop [0x80000000] with the two locations [0, 1] gives an opaque
    white bitmap, alpha 255 and not 128. *)
Lemma one_stop_two_locations_is_opaque :
  Android.baseMaskBitmap Samples.oneStopTwoLocations
  = Some (Graphics.mkBitmap 10 20 (Graphics.DrawColor Graphics.Color_WHITE)) /\
  Graphics.bitmapAlpha
    (Graphics.mkBitmap 10 20 (Graphics.DrawColor Graphics.Color_WHITE)) 0 0
  = 255%Q /\
  ~ (Graphics.bitmapAlpha
       (Graphics.mkBitmap 10 20 (Graphics.DrawColor Graphics.Color_WHITE)) 0 0
     == 128)%Q.
Proof. repeat split. discriminate. Qed.

(* ------------------------------------------------------------------ *)
(** ** Web gradient builder: absent colours and missing locations *)

Lemma mapi_from_nth {A B : Type} (f : A -> Z -> B) (l : list A) (k : Z)
    (i : nat) :
  nth_error (Web.mapi_from f k l) i
  = option_map (fun x => f x (k + Z.of_nat i)) (nth_error l i).
Proof.
  revert k i. induction l as [|x l IH]; intros k i.
  - destruct i; reflexivity.
  - destruct i as [|i]; cbn [Web.mapi_from nth_error option_map].
    + f_equal. f_equal. cbn. ring.
    + rewrite IH. destruct (nth_error l i); cbn [option_map]; [|reflexivity].
      f_equal. f_equal. lia.
Qed.

Lemma mapi_from_length {A B : Type} (f : A -> Z -> B) (l : list A) (k : Z) :
  List.length (Web.mapi_from f k l) = List.length l.
Proof.
  revert k. induction l as [|x l IH]; intros k; cbn; [|rewrite IH]; reflexivity.
Qed.

Lemma mapi_from_explicitNull (F : Z -> JS.number) (l : list Web.color)
    (k : Z) :
  Web.mapi_from (fun color index => Web.mkStop (Web.colorToRgba color) (F index))
                k (map Spec.explicitNull l)
  = Web.mapi_from
      (fun color index => Web.mkStop (Web.colorToRgba color) (F index)) k l.
Proof.
  revert k. induction l as [|c l IH]; intros k; cbn [map Web.mapi_from].
  - reflexivity.
  - rewrite IH. destruct c; reflexivity.
Qed.

(** The builder reads an absent colour as transparent black. *)
Lemma build_explicitNull (colors : list Web.color) (locations : list Q)
    (d : string) :
  Web.buildGradientString (map Spec.explicitNull colors) locations d
  = Web.buildGradientString colors locations d.
Proof.
  unfold Web.buildGradientString, Web.mapi, Web.stop_location.
  rewrite length_map. f_equal.
  apply (mapi_from_explicitNull
           (fun index =>
              match Web.at_index locations index with
              | Some l => JS.Num (l * 100)
              | None =>
                  JS.times100
                    (JS.div_index index (Z.of_nat (List.length colors) - 1))
              end)).
Qed.

(** So does the whole style at full intensity and at intensity zero. *)
Lemma style_explicitNull_at_ends (colors : list Web.color)
    (locations : list Q) (d : option string) (m : Q) :
  (m <= 0 \/ 1 <= m)%Q ->
  Web.maskStyle (map Spec.explicitNull colors) locations d m
  = Web.maskStyle colors locations d m.
Proof.
  intros Hm. unfold Web.maskStyle, Web.adjustColorsForOpacity.
  destruct (Qle_bool m 0) eqn:H0; [reflexivity|].
  destruct Hm as [Hm|Hm].
  - apply Qle_bool_iff in Hm. congruence.
  - apply Qle_bool_iff in Hm. rewrite Hm. f_equal. apply build_explicitNull.
Qed.

(** C7. An absent colour must behave as [0x00000000] in the blend as well.
    At intensity one half [adjustColorsForOpacity] hands an absent colour
    on unchanged, so that its stop keeps alpha 0, whereas the explicit
    transparent black is blended to [0x80000000], alpha 128/255. *)
Theorem absent_colour_is_not_blended :
  Web.colorToRgba None = Web.colorToRgba (Some 0) /\
  Web.adjustColorsForOpacity [None; Some 4294967295] (1 # 2)
  = [None; Some 4294967295] /\
  Web.adjustColorsForOpacity [Some 0; Some 4294967295] (1 # 2)
  = [Some 2147483648; Some 4294967295] /\
  option_map
    (fun g => map (fun s => Web.css_a (Web.cs_color s)) (Web.g_stops g))
    (Web.maskStyle [None; Some 4294967295] [0; 1]%Q (Some "top") (1 # 2))
  = Some [0; 1]%Q /\
  option_map
    (fun g => map (fun s => Web.css_a (Web.cs_color s)) (Web.g_stops g))
    (Web.maskStyle [Some 0; Some 4294967295] [0; 1]%Q (Some "top") (1 # 2))
  = Some [128 # 255; 1]%Q.
Proof. repeat split; reflexivity. Qed.

Lemma at_index_missing (locations : list Q) (i : nat) :
  (List.length locations <= i)%nat ->
  Web.at_index locations (Z.of_nat i) = None.
Proof.
  intros H. unfold Web.at_index.
  rewrite (proj2 (Z.ltb_ge (Z.of_nat i) 0)) by lia.
  rewrite Nat2Z.id. apply nth_error_None. exact H.
Qed.

Lemma android_mismatch_is_white (v : Android.View) (cs : list Z)
    (ls : list Q) :
  Android.colors v = Some cs -> Android.locations v = Some ls ->
  List.length cs <> List.length ls ->
  0 < Android.width v -> 0 < Android.height v ->
  Android.baseMaskBitmap (Android.updateBaseMaskBitmap v)
  = Some (Graphics.mkBitmap (Android.width v) (Android.height v)
            (Graphics.DrawColor Graphics.Color_WHITE)).
Proof.
  intros Hc Hl Hn Hw Hh. unfold Android.updateBaseMaskBitmap.
  rewrite (positive_size v Hw Hh).
  unfold Android.recycleOld.
  destruct (Android.baseMaskBitmap v);
    cbn [Android.call Android.colors Android.locations
         Android.width Android.height];
    rewrite Hc, Hl, (proj2 (Nat.eqb_neq _ _) Hn); reflexivity.
Qed.

(** C8 (as the code has it). With [n >= 2] colours and fewer locations the
    web builder still emits [n] stops, and the stop of every index [i]
    without a location is placed at [i / (n - 1)], as a percentage.  The
    Android builder does not abort either, but on any difference between
    the two lengths it paints the whole bitmap opaque white instead of a
    gradient. *)
Theorem missing_locations
    (colors : list Web.color) (locations : list Q) (d : string) (i : nat)
    (v : Android.View) (cs : list Z) (ls : list Q) :
  (2 <= List.length colors)%nat ->
  (List.length locations <= i < List.length colors)%nat ->
  Android.colors v = Some cs -> Android.locations v = Some ls ->
  List.length cs <> List.length ls ->
  0 < Android.width v -> 0 < Android.height v ->
  (List.length (Web.g_stops (Web.buildGradientString colors locations d))
   = List.length colors /\
   exists s q,
     nth_error (Web.g_stops (Web.buildGradientString colors locations d)) i
     = Some s /\
     Web.cs_location s = JS.Num q /\
     (q == Spec.evenLocation (Z.of_nat i) (Z.of_nat (List.length colors))
           * 100)%Q) /\
  Android.baseMaskBitmap (Android.updateBaseMaskBitmap v)
  = Some (Graphics.mkBitmap (Android.width v) (Android.height v)
            (Graphics.DrawColor Graphics.Color_WHITE)).
Proof.
  intros Hn [Hlo Hhi] Hc Hl Hne Hw Hh. split; [split|].
  - apply mapi_from_length.
  - destruct (nth_error colors i) as [c|] eqn:Hci;
      [|apply nth_error_None in Hci; lia].
    unfold Web.buildGradientString, Web.mapi. cbn [Web.g_stops].
    rewrite mapi_from_nth, Hci. cbn [option_map].
    unfold Web.stop_location. rewrite Z.add_0_l, (at_index_missing _ _ Hlo).
    unfold JS.div_index.
    rewrite (proj2 (Z.eqb_neq (Z.of_nat (List.length colors) - 1) 0)) by lia.
    eexists. eexists. split; [reflexivity|]. split; [reflexivity|].
    reflexivity.
  - apply (android_mismatch_is_white v cs ls); assumption.
Qed.

Lemma missing_locations_witness :
  exists s q,
    nth_error
      (Web.g_stops
         (Web.buildGradientString [Some 0; Some 2147483648; Some 4278190080]
                                  [0]%Q "top")) 1
    = Some s /\
    Web.cs_location s = JS.Num q /\ (q == 50)%Q.
Proof.
  destruct (missing_locations
              [Some 0; Some 2147483648; Some 4278190080] [0]%Q "top" 1
              Samples.fadeOneLocation Samples.fade [0]%Q
              (le_S _ _ (le_n 2)) (conj (le_n 1) (le_S _ _ (le_n 2)))
              eq_refl eq_refl
              (fun H : 2%nat = 1%nat => O_S 0 (eq_sym (eq_add_S _ _ H)))
              eq_refl eq_refl)
    as [[_ (s & q & Hs & Hq & Hv)] _].
  exists s, q. split; [exact Hs|]. split; [exact Hq|].
  rewrite Hv. reflexivity.
Defined.

(** C8, the claim as written fails on Android: two colours with the single
    location [0] do not give the evenly spaced gradient but an opaque white
    bitmap. *)
Lemma fade_one_location_is_white :
  Android.baseMaskBitmap Samples.fadeOneLocation
  = Some (Graphics.mkBitmap 10 20 (Graphics.DrawColor Graphics.Color_WHITE)) /\
  Android.baseMaskBitmap Samples.fadeOneLocation
  <> Some (Graphics.mkBitmap 10 20
             (Graphics.DrawRectShader
                (Graphics.mkLinearGradient 0 0 0 20
                   (map Android.maskColor Samples.fade)
                   [Spec.evenLocation 0 2; Spec.evenLocation 1 2]))).
Proof. split; [reflexivity | discriminate]. Qed.

(* ------------------------------------------------------------------ *)
(** * Further properties of the code *)

(** ** Web colour codec and blend *)

Lemma byte_high_bits (r j : Z) : 0 <= r < 256 -> 8 <= j -> Z.testbit r j = false.
Proof.
  intros Hr Hj. destruct (Z.eq_dec r 0) as [->|Hn]; [apply Z.bits_0|].
  apply Z.bits_above_log2; [lia|].
  apply Z.log2_lt_pow2; [lia|].
  pose proof (Z.pow_le_mono_r 2 8 j). lia.
Qed.

Lemma encode_range (a r g b : Z) : 0 <= Web.encode a r g b < 2 ^ 32.
Proof.
  unfold Web.encode, JS.ushr, JS.ToUint32, Int32.unsigned.
  change (0 mod 32) with 0. rewrite Z.shiftr_0_r.
  apply Z.mod_pos_bound. lia.
Qed.

Lemma encode_testbit (a r g b m : Z) :
  0 <= a < 256 -> 0 <= r < 256 -> 0 <= g < 256 -> 0 <= m < 32 ->
  Z.testbit (Web.encode a r g b) m
  = (24 <=? m) && Z.testbit a (m - 24)
    || (16 <=? m) && Z.testbit r (m - 16)
    || (8 <=? m) && Z.testbit g (m - 8)
    || Z.testbit b m.
Proof.
  intros Ha Hr Hg Hm. unfold Web.encode, JS.ushr, JS.ToUint32, Int32.unsigned.
  change (0 mod 32) with 0. rewrite Z.shiftr_0_r.
  rewrite Z.testbit_mod_pow2 by lia.
  rewrite (proj2 (Z.ltb_lt m 32)) by lia. cbn [andb].
  rewrite !bor_testbit by lia.
  rewrite !shl_testbit by (first [assumption | reflexivity | lia]).
  reflexivity.
Qed.

Ltac settle_bits :=
  repeat match goal with
    | |- context [?k <=? ?n] =>
        first [ rewrite (proj2 (Z.leb_le k n)) by lia
              | rewrite (proj2 (Z.leb_gt k n)) by lia ]
    | |- context [?k <? ?n] =>
        first [ rewrite (proj2 (Z.ltb_lt k n)) by lia
              | rewrite (proj2 (Z.ltb_ge k n)) by lia ]
    end;
  cbn [andb orb];
  rewrite ?(byte_high_bits _ _) by (assumption || lia);
  cbn [andb orb]; rewrite ?orb_false_r.

Lemma channel_of_encode (a r g b k c : Z) :
  0 <= a < 256 -> 0 <= r < 256 -> 0 <= g < 256 -> 0 <= b < 256 ->
  (k = 24 /\ c = a) \/ (k = 16 /\ c = r) \/ (k = 8 /\ c = g)
  \/ (k = 0 /\ c = b) ->
  JS.band (JS.sar (Web.encode a r g b) k) 255 = c.
Proof.
  intros Ha Hr Hg Hb Hk.
  assert (Hc : 0 <= c < 256) by (destruct Hk as [[? ->]|[[? ->]|[[? ->]|[? ->]]]]; assumption).
  apply Z.bits_inj'. intros n Hn.
  rewrite channel_testbit;
    [ | apply encode_range | lia
      | destruct Hk as [[-> _]|[[-> _]|[[-> _]|[-> _]]]]; reflexivity | lia ].
  destruct (Z.ltb_spec n 8) as [Hlt|Hge]; cbn [andb].
  - rewrite encode_testbit by (assumption || lia).
    destruct Hk as [[-> ->]|[[-> ->]|[[-> ->]|[-> ->]]]]; settle_bits.
    + replace (n + 24 - 24) with n by ring.
      rewrite (byte_high_bits r (n + 24 - 16)), (byte_high_bits g (n + 24 - 8)),
        (byte_high_bits b (n + 24)) by (assumption || lia).
      rewrite !orb_false_r. reflexivity.
    + replace (n + 16 - 16) with n by ring.
      rewrite (byte_high_bits g (n + 16 - 8)), (byte_high_bits b (n + 16))
        by (assumption || lia).
      rewrite !orb_false_r. reflexivity.
    + replace (n + 8 - 8) with n by ring.
      rewrite (byte_high_bits b (n + 8)) by (assumption || lia).
      rewrite !orb_false_r. reflexivity.
    + replace (n + 0) with n by ring. reflexivity.
  - symmetry. apply byte_high_bits; [assumption | lia].
Qed.

Lemma channels_are_bytes (c : Z) :
  0 <= Web.ch_a (Web.decode c) <= 255 /\
  0 <= Web.ch_r (Web.decode c) <= 255 /\
  0 <= Web.ch_g (Web.decode c) <= 255 /\
  0 <= Web.ch_b (Web.decode c) <= 255.
Proof.
  unfold Web.decode. cbn [Web.ch_a Web.ch_r Web.ch_g Web.ch_b].
  repeat split;
    match goal with
    | |- context [JS.band ?y 255] => pose proof (byte_range y); lia
    end.
Qed.

(** X1. Whatever number is passed as a colour, negative or beyond 32 bits,
    the four channels read from it are bytes. *)
Theorem decode_channels_are_bytes (c : Z) :
  0 <= Web.ch_a (Web.decode c) <= 255 /\
  0 <= Web.ch_r (Web.decode c) <= 255 /\
  0 <= Web.ch_g (Web.decode c) <= 255 /\
  0 <= Web.ch_b (Web.decode c) <= 255.
Proof. exact (channels_are_bytes c). Qed.

Lemma channels_of_encode (a r g b : Z) :
  0 <= a < 256 -> 0 <= r < 256 -> 0 <= g < 256 -> 0 <= b < 256 ->
  Web.decode (Web.encode a r g b) = Web.mkChannels a r g b.
Proof.
  intros Ha Hr Hg Hb. unfold Web.decode.
  rewrite (ushr0 _ (encode_range a r g b)).
  replace (JS.band (Web.encode a r g b) 255)
    with (JS.band (JS.sar (Web.encode a r g b) 0) 255).
  2:{ unfold JS.band, JS.sar. change (0 mod 32) with 0.
      rewrite Z.shiftr_0_r. f_equal. apply ToInt32_small.
      unfold JS.ToInt32, Int32.signed.
      destruct (Z.ltb_spec (Web.encode a r g b mod 2 ^ 32) (2 ^ 31));
        Z.div_mod_to_equations; lia. }
  rewrite (channel_of_encode a r g b 24 a), (channel_of_encode a r g b 16 r),
    (channel_of_encode a r g b 8 g), (channel_of_encode a r g b 0 b)
    by (assumption || tauto).
  reflexivity.
Qed.

(** X2. Packing four bytes and reading the channels back returns the four
    bytes. *)
Theorem decode_encode (a r g b : Z) :
  0 <= a < 256 -> 0 <= r < 256 -> 0 <= g < 256 -> 0 <= b < 256 ->
  Web.decode (Web.encode a r g b) = Web.mkChannels a r g b.
Proof. exact (channels_of_encode a r g b). Qed.

Lemma decode_encode_witness :
  Web.decode (Web.encode 128 1 2 3) = Web.mkChannels 128 1 2 3.
Proof. apply (decode_encode 128 1 2 3); lia. Defined.

Lemma shl_testbit_any (a k n : Z) :
  0 <= k < 32 -> k mod 32 = k -> 0 <= n < 32 ->
  Z.testbit (JS.shl a k) n = (k <=? n) && Z.testbit a (n - k).
Proof.
  intros Hk Hm Hn. unfold JS.shl. rewrite Hm.
  rewrite ToInt32_testbit by lia.
  destruct (Z.leb_spec k n).
  - rewrite Z.shiftl_spec_high by lia. apply ToInt32_testbit. lia.
  - rewrite Z.shiftl_spec_low by lia. reflexivity.
Qed.

Lemma encode_testbit_any (a r g b m : Z) :
  0 <= m < 32 ->
  Z.testbit (Web.encode a r g b) m
  = (24 <=? m) && Z.testbit a (m - 24)
    || (16 <=? m) && Z.testbit r (m - 16)
    || (8 <=? m) && Z.testbit g (m - 8)
    || Z.testbit b m.
Proof.
  intros Hm. unfold Web.encode, JS.ushr, JS.ToUint32, Int32.unsigned.
  change (0 mod 32) with 0. rewrite Z.shiftr_0_r.
  rewrite Z.testbit_mod_pow2 by lia.
  rewrite (proj2 (Z.ltb_lt m 32)) by lia. cbn [andb].
  rewrite !bor_testbit by lia.
  rewrite !shl_testbit_any by (first [reflexivity | lia]).
  reflexivity.
Qed.

(** Whatever is written into the alpha byte, even a number that is no
    byte, the three colour bytes are read back as they were packed. *)
Lemma rgb_of_encode (a r g b : Z) :
  0 <= r < 256 -> 0 <= g < 256 -> 0 <= b < 256 ->
  Web.ch_r (Web.decode (Web.encode a r g b)) = r /\
  Web.ch_g (Web.decode (Web.encode a r g b)) = g /\
  Web.ch_b (Web.decode (Web.encode a r g b)) = b.
Proof.
  intros Hr Hg Hb. unfold Web.decode.
  cbn [Web.ch_r Web.ch_g Web.ch_b].
  rewrite (ushr0 _ (encode_range a r g b)).
  replace (JS.band (Web.encode a r g b) 255)
    with (JS.band (JS.sar (Web.encode a r g b) 0) 255).
  2:{ unfold JS.band, JS.sar. change (0 mod 32) with 0.
      rewrite Z.shiftr_0_r. f_equal. apply ToInt32_small.
      unfold JS.ToInt32, Int32.signed.
      destruct (Z.ltb_spec (Web.encode a r g b mod 2 ^ 32) (2 ^ 31));
        Z.div_mod_to_equations; lia. }
  assert (H : forall k c,
             (k = 16 /\ c = r) \/ (k = 8 /\ c = g) \/ (k = 0 /\ c = b) ->
             JS.band (JS.sar (Web.encode a r g b) k) 255 = c).
  { intros k c Hk.
    assert (Hc : 0 <= c < 256)
      by (destruct Hk as [[? ->]|[[? ->]|[? ->]]]; assumption).
    apply Z.bits_inj'. intros n Hn.
    rewrite channel_testbit;
      [ | apply encode_range | lia
        | destruct Hk as [[-> _]|[[-> _]|[-> _]]]; reflexivity | lia ].
    destruct (Z.ltb_spec n 8) as [Hlt|Hge]; cbn [andb].
    - rewrite encode_testbit_any by lia.
      destruct Hk as [[-> ->]|[[-> ->]|[-> ->]]]; settle_bits.
      + replace (n + 16 - 16) with n by ring.
        rewrite (byte_high_bits g (n + 16 - 8)), (byte_high_bits b (n + 16))
          by (assumption || lia).
        rewrite !orb_false_r. reflexivity.
      + replace (n + 8 - 8) with n by ring.
        rewrite (byte_high_bits b (n + 8)) by (assumption || lia).
        rewrite !orb_false_r. reflexivity.
      + replace (n + 0) with n by ring. reflexivity.
    - symmetry. apply byte_high_bits; [assumption | lia]. }
  repeat split; apply H; tauto.
Qed.

(** X3. For an intensity strictly between 0 and 1 the web blend keeps the
    length and the order of the colour list, leaves absent colours absent,
    and leaves the red, green and blue bytes of every other colour as they
    were: only the alpha byte can change. *)
Theorem blend_changes_alpha_only (colors : list Web.color) (m : Q) :
  (0 < m)%Q -> (m < 1)%Q ->
  map (option_map
         (fun c => (Web.ch_r (Web.decode c), Web.ch_g (Web.decode c),
                    Web.ch_b (Web.decode c))))
      (Web.adjustColorsForOpacity colors m)
  = map (option_map
           (fun c => (Web.ch_r (Web.decode c), Web.ch_g (Web.decode c),
                      Web.ch_b (Web.decode c))))
        colors.
Proof.
  intros H0 H1. unfold Web.adjustColorsForOpacity.
  destruct (Qle_bool 1 m) eqn:E1; [apply Qle_bool_iff in E1; lra|].
  destruct (Qle_bool m 0) eqn:E0; [apply Qle_bool_iff in E0; lra|].
  rewrite map_map. apply map_ext. intros [c|]; [|reflexivity].
  cbn [option_map]. f_equal.
  destruct (channels_are_bytes c) as (_ & Hr & Hg & Hb).
  destruct (rgb_of_encode
              (Web.adjustedAlphaByte (Web.ch_a (Web.decode c)) m)
              (Web.ch_r (Web.decode c)) (Web.ch_g (Web.decode c))
              (Web.ch_b (Web.decode c))) as (Er & Eg & Eb); try lia.
  rewrite Er, Eg, Eb. reflexivity.
Qed.

Lemma blend_changes_alpha_only_witness :
  map (option_map
         (fun c => (Web.ch_r (Web.decode c), Web.ch_g (Web.decode c),
                    Web.ch_b (Web.decode c))))
      (Web.adjustColorsForOpacity [None; Some 16909060] (1 # 2))
  = [None; Some (2, 3, 4)].
Proof.
  apply (blend_changes_alpha_only [None; Some 16909060] (1 # 2));
    reflexivity.
Defined.

(** X6. A fully opaque stop or pixel stays fully opaque at every intensity
    that is a number, on every back end: in the web blend, in the baked
    Android blend, under the Android colour matrix, and under the iOS
    overlay. *)
Theorem opaque_stays_opaque (m r g b : Q) (u : IOS.View) :
  IOS.overlayOk u -> IOS.masked u ->
  Web.adjustedAlphaByte 255 m = 255 /\
  AndroidLegacy.blendedAlpha 255 m = 255 /\
  (Graphics.filterAlpha (Android.opacityMatrix m) r g b 255 == 255)%Q /\
  (IOS.effectiveAlpha u 255 == 255)%Q.
Proof.
  intros [Hc _] [frame Hm]. split; [|split; [|split]].
  - unfold Web.adjustedAlphaByte, JS.Math_round.
    rewrite (Qfloor_comp _ (255 + (1 # 2))) by field. reflexivity.
  - unfold AndroidLegacy.blendedAlpha, Graphics.toInt.
    assert (E : (255 + (inject_Z 255 - 255) * m == 255)%Q) by ring.
    assert (Hle : Qle_bool 0 (255 + (inject_Z 255 - 255) * m) = true).
    { apply Qle_bool_iff. rewrite E. discriminate. }
    rewrite Hle, (Qfloor_comp _ _ E). reflexivity.
  - rewrite matrix_alpha_affine. ring.
  - unfold IOS.effectiveAlpha. rewrite Hm.
    unfold IOS.compositeAlpha, IOS.layerAlpha, IOS.sourceOver.
    cbn [fold_left IOS.cm_sublayers]. rewrite Hc. cbn [IOS.alpha IOS.black].
    field.
Qed.

Lemma opaque_stays_opaque_witness :
  Web.adjustedAlphaByte 255 (1 # 3) = 255 /\
  AndroidLegacy.blendedAlpha 255 (1 # 3) = 255 /\
  (Graphics.filterAlpha (Android.opacityMatrix (1 # 3)) 255 255 255 255
   == 255)%Q /\
  (IOS.effectiveAlpha Samples.iosLaidOut 255 == 255)%Q.
Proof.
  apply (opaque_stays_opaque (1 # 3) 255 255 255 Samples.iosLaidOut).
  - split; [reflexivity | cbn; reflexivity].
  - exists (100, 100)%Q. reflexivity.
Defined.

Lemma at_index_present (locations : list Q) (i : nat) :
  Web.at_index locations (Z.of_nat i) = nth_error locations i.
Proof.
  unfold Web.at_index.
  rewrite (proj2 (Z.ltb_ge (Z.of_nat i) 0)) by lia.
  rewrite Nat2Z.id. reflexivity.
Qed.

Lemma stop_at (colors : list Web.color) (locations : list Q) (d : string)
    (i : nat) :
  nth_error (Web.g_stops (Web.buildGradientString colors locations d)) i
  = option_map
      (fun c => Web.mkStop (Web.colorToRgba c)
                  (Web.stop_location colors locations (Z.of_nat i)))
      (nth_error colors i).
Proof.
  unfold Web.buildGradientString, Web.mapi. cbn [Web.g_stops].
  rewrite mapi_from_nth. rewrite Z.add_0_l. reflexivity.
Qed.

(** X7. A colour that has a location of its own is placed at that location,
    as a percentage, with the colour's own channels; locations beyond the
    last colour are ignored. *)
Theorem located_stop (colors : list Web.color) (locations : list Q)
    (d : string) (i : nat) (c : Web.color) (l : Q) :
  nth_error colors i = Some c -> nth_error locations i = Some l ->
  nth_error (Web.g_stops (Web.buildGradientString colors locations d)) i
  = Some (Web.mkStop (Web.colorToRgba c) (JS.Num (l * 100))) /\
  List.length (Web.g_stops (Web.buildGradientString colors locations d))
  = List.length colors.
Proof.
  intros Hc Hl. split.
  - rewrite stop_at, Hc. cbn [option_map]. unfold Web.stop_location.
    rewrite at_index_present, Hl. reflexivity.
  - apply mapi_from_length.
Qed.

Lemma located_stop_witness :
  nth_error
    (Web.g_stops
       (Web.buildGradientString [Some 0; Some 4278190080]
                                [0; 3 # 10; 1]%Q "left")) 1
  = Some (Web.mkStop (Web.colorToRgba (Some 4278190080))
                     (JS.Num ((3 # 10) * 100))) /\
  List.length
    (Web.g_stops
       (Web.buildGradientString [Some 0; Some 4278190080]
                                [0; 3 # 10; 1]%Q "left"))
  = 2%nat.
Proof.
  apply (located_stop [Some 0; Some 4278190080] [0; 3 # 10; 1]%Q "left" 1
           (Some 4278190080) (3 # 10)); reflexivity.
Defined.

(** X8. For locations that are all numbers, the builder emits a stop
    without a number for its location ([NaN], from [0 / 0]) exactly when
    there is a single colour and no location at all; every other stop of
    every other such input has a number. *)
Theorem nan_only_for_lone_colour (colors : list Web.color)
    (locations : list Q) (d : string) :
  (exists s,
      In s (Web.g_stops (Web.buildGradientString colors locations d)) /\
      Web.cs_location s = JS.NaN)
  <-> (List.length colors = 1%nat /\ locations = []).
Proof.
  split.
  - intros (s & Hin & Hnan).
    apply In_nth_error in Hin. destruct Hin as [i Hi].
    rewrite stop_at in Hi.
    destruct (nth_error colors i) as [c|] eqn:Hc; [|discriminate].
    assert (Hlt : (i < List.length colors)%nat)
      by (apply nth_error_Some; congruence).
    cbn [option_map] in Hi. injection Hi as <-. cbn [Web.cs_location] in Hnan.
    unfold Web.stop_location in Hnan. rewrite at_index_present in Hnan.
    destruct (nth_error locations i) as [l|] eqn:Hl; [discriminate|].
    unfold JS.div_index in Hnan.
    destruct (Z.eqb_spec (Z.of_nat (List.length colors) - 1) 0) as [E|E];
      [|discriminate].
    assert (Hn : List.length colors = 1%nat) by lia.
    split; [exact Hn|].
    assert (i = 0%nat) by lia. subst i.
    destruct locations; [reflexivity | discriminate].
  - intros [Hn ->].
    destruct colors as [|c [|c' cs]]; try discriminate.
    eexists. split; [left; reflexivity | reflexivity].
Qed.

Lemma direction_keyword (d : string) :
  In (Web.getGradientDirection d)
     ["to bottom"; "to top"; "to right"; "to left"].
Proof.
  unfold Web.getGradientDirection.
  destruct (String.eqb d "top"); [cbn; tauto|].
  destruct (String.eqb d "bottom"); [cbn; tauto|].
  destruct (String.eqb d "left"); [cbn; tauto|].
  destruct (String.eqb d "right"); cbn; tauto.
Qed.

Lemma adjust_length (colors : list Web.color) (m : Q) :
  List.length (Web.adjustColorsForOpacity colors m) = List.length colors.
Proof.
  unfold Web.adjustColorsForOpacity.
  destruct (Qle_bool 1 m); [reflexivity|].
  destruct (Qle_bool m 0); apply length_map.
Qed.

(** X9. For every positive intensity, whatever the colours, locations and
    direction (known, unknown or absent), the web view gets a mask image:
    a gradient with one stop per colour, in one of the four CSS directions. *)
Theorem style_has_a_stop_per_colour (colors : list Web.color)
    (locations : list Q) (d : option string) (m : Q) :
  (0 < m)%Q ->
  exists g,
    Web.maskStyle colors locations d m = Some g /\
    List.length (Web.g_stops g) = List.length colors /\
    In (Web.g_direction g) ["to bottom"; "to top"; "to right"; "to left"].
Proof.
  intros Hm. unfold Web.maskStyle.
  destruct (Qle_bool m 0) eqn:E0; [apply Qle_bool_iff in E0; lra|].
  eexists. split; [reflexivity|]. split.
  - unfold Web.buildGradientString, Web.mapi. cbn [Web.g_stops].
    rewrite mapi_from_length. apply adjust_length.
  - apply direction_keyword.
Qed.

Lemma style_has_a_stop_per_colour_witness :
  exists g,
    Web.maskStyle [None; Some 4278190080] [] (Some "sideways") (1 # 2)
    = Some g /\
    List.length (Web.g_stops g) = 2%nat /\
    In (Web.g_direction g) ["to bottom"; "to top"; "to right"; "to left"].
Proof.
  apply (style_has_a_stop_per_colour [None; Some 4278190080] []
           (Some "sideways") (1 # 2)).
  reflexivity.
Defined.

(* ------------------------------------------------------------------ *)
(** ** Life of an Android view *)

Lemma coerce_unit (o : Q) : (0 <= Graphics.coerceIn o 0 1 <= 1)%Q.
Proof.
  unfold Graphics.coerceIn.
  destruct (Qle_bool 0 o) eqn:H0; cbn [negb]; [|lra].
  apply Qle_bool_iff in H0.
  destruct (Qle_bool o 1) eqn:H1; cbn [negb]; [|lra].
  apply Qle_bool_iff in H1. lra.
Qed.

Lemma step_maskOpacity (v : Android.View) (e : AndroidModule.Event) :
  (0 <= Android.maskOpacity v <= 1)%Q ->
  (0 <= Android.maskOpacity (AndroidModule.step v e) <= 1)%Q.
Proof.
  intros H.
  destruct e as [c|l|d|o|w h|changed| |]; cbn [AndroidModule.step].
  - exact H.
  - exact H.
  - exact H.
  - unfold AndroidModule.propMaskOpacity, Android.setMaskOpacity.
    destruct (negb _); [apply coerce_unit | exact H].
  - unfold Android.resize, Android.onSizeChanged.
    destruct ((0 <? w) && (0 <? h)); [|exact H].
    cbn [Android.setInvalidated Android.maskOpacity].
    match goal with
    | |- context [Android.updateBaseMaskBitmap ?x] =>
        destruct (updateBase_fields x) as (_ & _ & _ & E & _)
    end.
    rewrite E. exact H.
  - destruct changed; exact H.
  - destruct (draw_cache v) as (_ & E & _). rewrite E. exact H.
  - unfold Android.onDetachedFromWindow, Android.recycleOld.
    destruct (Android.baseMaskBitmap v); exact H.
Qed.

(** X10. Whatever props and framework calls a view receives, in whatever
    order, and whatever numbers are passed as opacity (absent, negative,
    above one), the opacity the view keeps lies between 0 and 1. *)
Theorem opacity_stays_clamped (es : list AndroidModule.Event) :
  (0 <= Android.maskOpacity (AndroidModule.run es Android.init) <= 1)%Q.
Proof.
  unfold AndroidModule.run.
  assert (H : (0 <= Android.maskOpacity Android.init <= 1)%Q)
    by (split; discriminate).
  revert H. generalize Android.init.
  induction es as [|e es IH]; intros v H; cbn [fold_left].
  - exact H.
  - apply IH, step_maskOpacity, H.
Qed.

(** X11. Passing the same number as opacity twice is the same as passing
    it once: the second call changes nothing and schedules no redraw. *)
Theorem setMaskOpacity_idempotent (o : Q) (v : Android.View) :
  Android.setMaskOpacity o (Android.setMaskOpacity o v)
  = Android.setMaskOpacity o v.
Proof.
  destruct (Qeq_bool (Graphics.coerceIn o 0 1) (Android.maskOpacity v)) eqn:E.
  - assert (Hv : Android.setMaskOpacity o v = v)
      by (unfold Android.setMaskOpacity; rewrite E; reflexivity).
    rewrite !Hv. reflexivity.
  - assert (Hv : Android.setMaskOpacity o v
                 = Android.call Graphics.Invalidate
                     (Android.mkView (Android.colors v) (Android.locations v)
                        (Android.direction v) (Graphics.coerceIn o 0 1)
                        (Android.baseMaskBitmap v)
                        (Android.baseBitmapInvalidated v)
                        (Android.width v) (Android.height v)
                        (Android.calls v)))
      by (unfold Android.setMaskOpacity; rewrite E; reflexivity).
    rewrite Hv. unfold Android.setMaskOpacity.
    cbn [Android.call Android.maskOpacity].
    rewrite (proj2 (Qeq_bool_iff _ _) (Qeq_refl (Graphics.coerceIn o 0 1))).
    reflexivity.
Qed.

(** What a rebuild does on a surface of positive size. *)
Lemma updateBase_effect (x : Android.View) :
  (Android.width x <=? 0) || (Android.height x <=? 0) = false ->
  exists fill,
    Android.baseMaskBitmap (Android.updateBaseMaskBitmap x)
    = Some (Graphics.mkBitmap (Android.width x) (Android.height x) fill) /\
    Android.calls (Android.updateBaseMaskBitmap x)
    = Graphics.CreateBitmap (Android.width x) (Android.height x)
      :: match Android.baseMaskBitmap x with
         | Some old => Graphics.Recycle old :: Android.calls x
         | None => Android.calls x
         end.
Proof.
  intros Hsz. unfold Android.updateBaseMaskBitmap. rewrite Hsz.
  unfold Android.recycleOld, Android.getGradientCoordinates.
  destruct (Android.baseMaskBitmap x); split_ifs; cbn;
    eexists; split; reflexivity.
Qed.




Lemma step_creates_positive (v : Android.View) (e : AndroidModule.Event) :
  Forall AndroidModule.createsPositive (Android.calls v) ->
  Forall AndroidModule.createsPositive (Android.calls (AndroidModule.step v e)).
Proof.
  intros H.
  assert (Hu : forall x,
             Forall AndroidModule.createsPositive (Android.calls x) ->
             Forall AndroidModule.createsPositive
                    (Android.calls (Android.updateBaseMaskBitmap x))).
  { intros x Hx. unfold Android.updateBaseMaskBitmap.
    destruct ((Android.width x <=? 0) || (Android.height x <=? 0)) eqn:Hsz;
      [exact Hx|].
    apply orb_false_iff in Hsz. destruct Hsz as [Hw Hh].
    apply Z.leb_gt in Hw, Hh.
    unfold Android.recycleOld, Android.getGradientCoordinates.
    destruct (Android.baseMaskBitmap x); split_ifs; cbn;
      repeat (constructor; cbn; auto). }
  destruct e as [c|l|d|o|w h|changed| |]; cbn [AndroidModule.step].
  - constructor; [exact I | exact H].
  - constructor; [exact I | exact H].
  - constructor; [exact I | exact H].
  - unfold AndroidModule.propMaskOpacity, Android.setMaskOpacity.
    destruct (negb _); [constructor; [exact I | exact H] | exact H].
  - unfold Android.resize, Android.onSizeChanged.
    destruct ((0 <? w) && (0 <? h)); [|exact H].
    apply (Hu (Android.mkView _ _ _ _ _ _ _ _ _)). exact H.
  - destruct changed; exact H.
  - unfold Android.draw, Android.dispatchDraw.
    destruct ((Android.width v <=? 0) || (Android.height v <=? 0));
      [exact H|].
    destruct (Android.baseBitmapInvalidated v).
    + cbn [Android.setInvalidated Android.baseMaskBitmap Android.maskOpacity].
      split_ifs; cbn [fst Android.calls]; apply Hu, H.
    + split_ifs; exact H.
  - unfold Android.onDetachedFromWindow, Android.recycleOld.
    destruct (Android.baseMaskBitmap v); cbn;
      [constructor; [exact I | exact H] | exact H].
Qed.

(** X13. A view never asks for a bitmap of zero or negative width or
    height, whatever sizes the framework reports and whenever it draws. *)
Theorem never_creates_empty_bitmap (es : list AndroidModule.Event) :
  Forall AndroidModule.createsPositive
         (Android.calls (AndroidModule.run es Android.init)).
Proof.
  unfold AndroidModule.run.
  assert (H : Forall AndroidModule.createsPositive (Android.calls Android.init))
    by constructor.
  revert H. generalize Android.init.
  induction es as [|e es IH]; intros v H; cbn [fold_left].
  - exact H.
  - apply IH, step_creates_positive, H.
Qed.

Lemma step_sized (v : Android.View) (e : AndroidModule.Event) :
  (forall b,
      Android.baseMaskBitmap v = Some b ->
      (Android.width v <=? 0) || (Android.height v <=? 0) = false ->
      Android.baseBitmapInvalidated v = false ->
      Graphics.bm_width b = Android.width v /\
      Graphics.bm_height b = Android.height v) ->
  forall b,
    Android.baseMaskBitmap (AndroidModule.step v e) = Some b ->
    (Android.width (AndroidModule.step v e) <=? 0)
    || (Android.height (AndroidModule.step v e) <=? 0) = false ->
    Android.baseBitmapInvalidated (AndroidModule.step v e) = false ->
    Graphics.bm_width b = Android.width (AndroidModule.step v e) /\
    Graphics.bm_height b = Android.height (AndroidModule.step v e).
Proof.
  intros H.
  destruct e as [c|l|d|o|w h|changed| |]; cbn [AndroidModule.step].
  - intros b _ _ Hf. discriminate Hf.
  - intros b _ _ Hf. discriminate Hf.
  - intros b _ _ Hf. discriminate Hf.
  - unfold AndroidModule.propMaskOpacity.
    destruct (setMaskOpacity_cache
                (match o with Some o0 => o0 | None => 1%Q end) v)
      as (Ek & Eb & Ei & _).
    destruct (key_size _ _ Ek) as [Ew Eh].
    rewrite Eb, Ei, Ew, Eh. exact H.
  - unfold Android.resize, Android.onSizeChanged.
    destruct ((0 <? w) && (0 <? h)) eqn:Hp.
    + apply andb_true_iff in Hp. destruct Hp as [Hw Hh].
      apply Z.ltb_lt in Hw, Hh.
      match goal with
      | |- context [Android.updateBaseMaskBitmap ?x] =>
          destruct (updateBase_fields x) as (_ & _ & _ & _ & E5 & E6 & _);
          destruct (updateBase_effect x) as (fill & Eb & _);
          [ cbn [Android.width Android.height];
            apply orb_false_iff; split; apply Z.leb_gt; assumption | ]
      end.
      cbn [Android.setInvalidated Android.baseMaskBitmap Android.width
           Android.height Android.baseBitmapInvalidated].
      rewrite Eb, E5, E6. cbn [Android.width Android.height].
      intros b Hb _ _. injection Hb as <-. split; reflexivity.
    + cbn [Android.baseMaskBitmap Android.width Android.height
           Android.baseBitmapInvalidated].
      intros b Hb Hsz Hf. apply andb_false_iff in Hp.
      apply orb_false_iff in Hsz. destruct Hsz as [Hw Hh].
      apply Z.leb_gt in Hw, Hh.
      destruct Hp as [Hp|Hp]; apply Z.ltb_ge in Hp; lia.
  - destruct changed; [intros b _ _ Hf; discriminate Hf | exact H].
  - destruct (draw_cache v) as (Ek & _ & _ & Ei & Eb).
    destruct (key_size _ _ Ek) as [Ew Eh]. rewrite Ew, Eh.
    intros b Hb Hsz _.
    destruct (Android.baseBitmapInvalidated v) eqn:Hf.
    + unfold Android.draw, Android.dispatchDraw in Hb. rewrite Hsz, Hf in Hb.
      destruct (updateBase_effect v Hsz) as (fill & Eu & _).
      assert (Hb' : Android.baseMaskBitmap
                      (Android.setInvalidated false
                         (Android.updateBaseMaskBitmap v)) = Some b).
      { revert Hb. split_ifs; cbn [fst]; intros; congruence. }
      cbn [Android.setInvalidated Android.baseMaskBitmap] in Hb'.
      rewrite Eu in Hb'. injection Hb' as <-. split; reflexivity.
    + rewrite (Eb (or_intror eq_refl)) in Hb. apply (H b Hb Hsz eq_refl).
  - unfold Android.onDetachedFromWindow. intros b Hb. discriminate Hb.
Qed.

Lemma run_sized (es : list AndroidModule.Event) (b : Graphics.Bitmap) :
  Android.baseMaskBitmap (AndroidModule.run es Android.init) = Some b ->
  (Android.width (AndroidModule.run es Android.init) <=? 0)
  || (Android.height (AndroidModule.run es Android.init) <=? 0) = false ->
  Android.baseBitmapInvalidated (AndroidModule.run es Android.init) = false ->
  Graphics.bm_width b = Android.width (AndroidModule.run es Android.init) /\
  Graphics.bm_height b = Android.height (AndroidModule.run es Android.init).
Proof.
  unfold AndroidModule.run. revert b.
  assert (H : forall b,
             Android.baseMaskBitmap Android.init = Some b ->
             (Android.width Android.init <=? 0)
             || (Android.height Android.init <=? 0) = false ->
             Android.baseBitmapInvalidated Android.init = false ->
             Graphics.bm_width b = Android.width Android.init /\
             Graphics.bm_height b = Android.height Android.init)
    by (intros b Hb; discriminate Hb).
  revert H. generalize Android.init.
  induction es as [|e es IH]; intros v H; cbn [fold_left].
  - exact H.
  - apply IH, step_sized, H.
Qed.

(** X14. Whenever a view draws its mask, the bitmap it draws has exactly
    the width and height the view has at that moment, whatever happened to
    the view before. *)
Theorem drawn_mask_has_view_size (es : list AndroidModule.Event)
    (b : Graphics.Bitmap) (f : option Graphics.ColorMatrix) :
  In (Graphics.DrawBitmapDstIn b f)
     (snd (Android.dispatchDraw (AndroidModule.run es Android.init))) ->
  Graphics.bm_width b = Android.width (AndroidModule.run es Android.init) /\
  Graphics.bm_height b = Android.height (AndroidModule.run es Android.init).
Proof.
  pose proof (run_sized es) as Hs.
  set (v := AndroidModule.run es Android.init) in *.
  unfold Android.dispatchDraw.
  destruct ((Android.width v <=? 0) || (Android.height v <=? 0)) eqn:Hsz.
  { cbn. intros [H|[]]. discriminate H. }
  destruct (Android.baseBitmapInvalidated v) eqn:Hf.
  - destruct (updateBase_effect v Hsz) as (fill & Eu & _).
    cbn [Android.setInvalidated Android.baseMaskBitmap Android.maskOpacity
         Android.width Android.height].
    rewrite Eu.
    destruct (Qle_bool _ 0); cbn [snd In].
    + intros [H|[]]. discriminate H.
    + intros [H|[H|[H|[H|[]]]]]; try discriminate H.
      injection H as <- _. split; reflexivity.
  - destruct (Android.baseMaskBitmap v) as [b0|] eqn:Hb; cbn [snd In].
    + destruct (Qle_bool _ 0); cbn [snd In].
      * intros [H|[]]. discriminate H.
      * intros [H|[H|[H|[H|[]]]]]; try discriminate H.
        injection H as <- _. apply (Hs b0 eq_refl eq_refl eq_refl).
    + intros [H|[]]. discriminate H.
Qed.

Lemma drawn_mask_has_view_size_witness :
  Graphics.bm_width
    (Graphics.mkBitmap 30 40 (Graphics.DrawColor Graphics.Color_WHITE)) = 30 /\
  Graphics.bm_height
    (Graphics.mkBitmap 30 40 (Graphics.DrawColor Graphics.Color_WHITE)) = 40.
Proof.
  apply (drawn_mask_has_view_size
           [AndroidModule.SizeChanged 10 20; AndroidModule.DispatchDraw;
            AndroidModule.SizeChanged 30 40]
           (Graphics.mkBitmap 30 40 (Graphics.DrawColor Graphics.Color_WHITE))
           None).
  cbn. right. right. left. reflexivity.
Defined.





(** X18. Without colours, without locations, or with an empty colour list,
    a rebuild on a surface of positive size gives an opaque white bitmap:
    the mask has alpha 255 at every position, at full opacity and through
    the opacity matrix of any opacity. *)
Theorem no_stops_no_mask (v : Android.View) (m px py : Q) :
  0 < Android.width v -> 0 < Android.height v ->
  Android.colors v = None \/ Android.locations v = None
  \/ Android.colors v = Some [] ->
  exists b,
    Android.baseMaskBitmap (Android.updateBaseMaskBitmap v) = Some b /\
    Graphics.bm_fill b = Graphics.DrawColor Graphics.Color_WHITE /\
    (Android.effectiveAlpha b None px py == 255)%Q /\
    (Android.effectiveAlpha b (Some (Android.opacityMatrix m)) px py == 255)%Q.
Proof.
  intros Hw Hh Hc.
  assert (Hb : Android.baseMaskBitmap (Android.updateBaseMaskBitmap v)
               = Some (Graphics.mkBitmap (Android.width v) (Android.height v)
                         (Graphics.DrawColor Graphics.Color_WHITE))).
  { unfold Android.updateBaseMaskBitmap. rewrite (positive_size v Hw Hh).
    unfold Android.recycleOld.
    destruct (Android.baseMaskBitmap v);
      cbn [Android.call Android.colors Android.locations Android.width
           Android.height];
      destruct Hc as [Hc|[Hc|Hc]]; rewrite Hc;
      try reflexivity;
      destruct (Android.colors v) as [cs|]; try reflexivity;
      destruct (Android.locations v) as [ls|]; try reflexivity;
      try discriminate;
      cbn [List.length Nat.eqb]; rewrite ?orb_true_r; reflexivity. }
  eexists. split; [exact Hb|]. split; [reflexivity|].
  unfold Android.effectiveAlpha, Graphics.bitmapAlpha.
  cbn [Graphics.bm_fill]. split; [reflexivity|].
  rewrite matrix_alpha_affine.
  change (inject_Z (Graphics.Color_alpha Graphics.Color_WHITE)) with 255%Q.
  ring.
Qed.

Lemma no_stops_no_mask_witness :
  exists b,
    Android.baseMaskBitmap
      (Android.updateBaseMaskBitmap (Android.resize 10 20 Android.init))
    = Some b /\
    Graphics.bm_fill b = Graphics.DrawColor Graphics.Color_WHITE /\
    (Android.effectiveAlpha b None 0 0 == 255)%Q /\
    (Android.effectiveAlpha b (Some (Android.opacityMatrix (1 # 2))) 0 0
     == 255)%Q.
Proof.
  apply (no_stops_no_mask (Android.resize 10 20 Android.init) (1 # 2) 0 0);
    [reflexivity | reflexivity | left; reflexivity].
Defined.

Lemma positive_as_Q (z : Z) : 0 < z -> ~ (inject_Z z == 0)%Q.
Proof.
  intros Hz E. unfold Qeq in E. cbn in E. lia.
Qed.

(** X19. Opposite directions give mirrored ramps: the axis of bottom is
    the axis of top with start and end exchanged, and likewise right and
    left; so on a surface of positive size the normalised coordinate of
    every position along the bottom axis is one minus its coordinate along
    the top axis, and likewise for right and left. *)
Theorem opposite_directions_mirror (v : Android.View) (px py : Q) :
  0 < Android.width v -> 0 < Android.height v ->
  Android.getGradientCoordinates (Android.setDirection "bottom" v)
  = (let '(x0, y0, x1, y1) :=
       Android.getGradientCoordinates (Android.setDirection "top" v) in
     (x1, y1, x0, y0)) /\
  Android.getGradientCoordinates (Android.setDirection "right" v)
  = (let '(x0, y0, x1, y1) :=
       Android.getGradientCoordinates (Android.setDirection "left" v) in
     (x1, y1, x0, y0)) /\
  (projectOn (Android.getGradientCoordinates (Android.setDirection "bottom" v))
             px py
   == 1 - projectOn
            (Android.getGradientCoordinates (Android.setDirection "top" v))
            px py)%Q /\
  (projectOn (Android.getGradientCoordinates (Android.setDirection "right" v))
             px py
   == 1 - projectOn
            (Android.getGradientCoordinates (Android.setDirection "left" v))
            px py)%Q.
Proof.
  intros Hw Hh.
  pose proof (positive_as_Q _ Hw) as Hw'.
  pose proof (positive_as_Q _ Hh) as Hh'.
  unfold Android.getGradientCoordinates, Android.setDirection, Android.call,
    Android.setInvalidated.
  cbn [Android.direction Android.width Android.height String.eqb Ascii.eqb
       Bool.eqb projectOn].
  unfold Graphics.project.
  split; [reflexivity|]. split; [reflexivity|]. split; field; assumption.
Qed.

Lemma opposite_directions_mirror_witness :
  Android.getGradientCoordinates
    (Android.setDirection "bottom" Samples.androidDrawn)
  = (0, inject_Z 20, 0, 0)%Q /\
  Android.getGradientCoordinates
    (Android.setDirection "right" Samples.androidDrawn)
  = (inject_Z 10, 0, 0, 0)%Q /\
  (projectOn
     (Android.getGradientCoordinates
        (Android.setDirection "bottom" Samples.androidDrawn)) 3 5
   == 1 - projectOn
            (Android.getGradientCoordinates
               (Android.setDirection "top" Samples.androidDrawn)) 3 5)%Q /\
  (projectOn
     (Android.getGradientCoordinates
        (Android.setDirection "right" Samples.androidDrawn)) 3 5
   == 1 - projectOn
            (Android.getGradientCoordinates
               (Android.setDirection "left" Samples.androidDrawn)) 3 5)%Q.
Proof.
  apply (opposite_directions_mirror Samples.androidDrawn 3 5); reflexivity.
Defined.

(** X20. A detach recycles the bitmap and forgets it without marking the
    cache invalid.  If the cache was valid, the next draw therefore builds
    nothing and draws the children without any mask. *)
Theorem detach_drops_mask (v : Android.View) :
  Android.baseBitmapInvalidated v = false ->
  Android.baseMaskBitmap (Android.onDetachedFromWindow v) = None /\
  Android.baseBitmapInvalidated (Android.onDetachedFromWindow v) = false /\
  Android.dispatchDraw (Android.onDetachedFromWindow v)
  = (Android.onDetachedFromWindow v, [Graphics.SuperDispatchDraw]).
Proof.
  intros Hf.
  assert (Hf' : Android.baseBitmapInvalidated (Android.onDetachedFromWindow v)
                = false).
  { unfold Android.onDetachedFromWindow, Android.recycleOld.
    destruct (Android.baseMaskBitmap v); exact Hf. }
  split; [reflexivity|]. split; [exact Hf'|].
  unfold Android.dispatchDraw. rewrite Hf'.
  destruct ((Android.width _ <=? 0) || (Android.height _ <=? 0));
    reflexivity.
Qed.

Lemma detach_drops_mask_witness :
  Android.baseMaskBitmap (Android.onDetachedFromWindow Samples.androidDrawn)
  = None /\
  Android.baseBitmapInvalidated
    (Android.onDetachedFromWindow Samples.androidDrawn) = false /\
  Android.dispatchDraw (Android.onDetachedFromWindow Samples.androidDrawn)
  = (Android.onDetachedFromWindow Samples.androidDrawn,
     [Graphics.SuperDispatchDraw]).
Proof. apply (detach_drops_mask Samples.androidDrawn). reflexivity. Defined.

(** X21. In the view that bakes the opacity into its stops, on a surface of
    positive size every opacity update, even to the value the view already
    has, makes the next draw build one new bitmap. *)
Theorem legacy_rebuilds_on_every_opacity_update
    (l : AndroidLegacy.View) (o : Q) :
  0 < AndroidLegacy.width l -> 0 < AndroidLegacy.height l ->
  AndroidLegacy.rebuilds (AndroidLegacy.draw (AndroidLegacy.setMaskOpacity o l))
  = S (AndroidLegacy.rebuilds l).
Proof.
  intros Hw Hh.
  unfold AndroidLegacy.draw, AndroidLegacy.dispatchDraw,
    AndroidLegacy.setMaskOpacity, AndroidLegacy.call,
    AndroidLegacy.setInvalidated.
  cbn [AndroidLegacy.width AndroidLegacy.height
       AndroidLegacy.maskBitmapInvalidated].
  rewrite (proj2 (Z.leb_gt _ _) Hw), (proj2 (Z.leb_gt _ _) Hh). cbn [orb].
  unfold AndroidLegacy.updateMaskBitmap.
  cbn [AndroidLegacy.width AndroidLegacy.height].
  rewrite (proj2 (Z.leb_gt _ _) Hw), (proj2 (Z.leb_gt _ _) Hh). cbn [orb].
  unfold AndroidLegacy.recycleOld, AndroidLegacy.getGradientCoordinates,
    AndroidLegacy.rebuilds, Graphics.rebuildCount.
  cbn [AndroidLegacy.maskBitmap AndroidLegacy.colors AndroidLegacy.locations
       AndroidLegacy.direction].
  destruct (AndroidLegacy.maskBitmap l); split_ifs; reflexivity.
Qed.

Lemma legacy_rebuilds_on_every_opacity_update_witness :
  AndroidLegacy.rebuilds
    (AndroidLegacy.draw (AndroidLegacy.setMaskOpacity 1 Samples.legacyDrawn))
  = S (AndroidLegacy.rebuilds Samples.legacyDrawn).
Proof.
  apply (legacy_rebuilds_on_every_opacity_update Samples.legacyDrawn 1);
    reflexivity.
Defined.

(* ------------------------------------------------------------------ *)
(** ** iOS view and agreement between the back ends *)

Lemma shifted_byte (x k : Z) :
  0 <= x < 2 ^ 32 -> 0 <= k <= 24 -> k mod 32 = k ->
  JS.band (JS.sar x k) 255 = Z.land (Z.shiftr x k) 255.
Proof.
  intros Hx Hk Hm. apply Z.bits_inj'. intros n Hn.
  rewrite channel_testbit by assumption.
  rewrite Z.land_spec, Z.shiftr_spec by lia.
  change 255 with (Z.ones 8).
  destruct (Z.ltb_spec n 8).
  - rewrite Z.ones_spec_low by lia. rewrite andb_true_r. reflexivity.
  - rewrite Z.ones_spec_high by lia. rewrite andb_false_r. reflexivity.
Qed.

Lemma unsigned_range (c : Z) : 0 <= Int32.unsigned c < 2 ^ 32.
Proof. unfold Int32.unsigned. apply Z.mod_pos_bound. lia. Qed.

Lemma alpha_is_masked_shift (c : Z) :
  Z.land (Z.shiftr (Int32.unsigned c) 24) 255 = Graphics.Color_alpha c.
Proof.
  unfold Graphics.Color_alpha. change 255 with (Z.ones 8).
  rewrite Z.land_ones by lia. apply Z.mod_small.
  pose proof (Color_alpha_range c) as H. unfold Graphics.Color_alpha in H.
  lia.
Qed.

(** X22. The three back ends read the same channels from a processed
    colour, whatever integer it is: the iOS colour components are the web
    channels over 255, and the alpha is the one Android's [Color.alpha]
    reads. *)
Theorem back_ends_read_same_channels (c : Z) :
  (IOS.alpha (IOS.colorOfInt c)
   == inject_Z (Web.ch_a (Web.decode c)) / 255)%Q /\
  (IOS.red (IOS.colorOfInt c)
   == inject_Z (Web.ch_r (Web.decode c)) / 255)%Q /\
  (IOS.green (IOS.colorOfInt c)
   == inject_Z (Web.ch_g (Web.decode c)) / 255)%Q /\
  (IOS.blue (IOS.colorOfInt c)
   == inject_Z (Web.ch_b (Web.decode c)) / 255)%Q /\
  (IOS.alpha (IOS.colorOfInt c) == Web.css_a (Web.colorToRgba (Some c)))%Q /\
  Web.ch_a (Web.decode c) = Graphics.Color_alpha c.
Proof.
  pose proof (unsigned_range c) as Hx.
  assert (Hu : JS.ushr c 0 = Int32.unsigned c).
  { unfold JS.ushr, JS.ToUint32. change (0 mod 32) with 0.
    apply Z.shiftr_0_r. }
  assert (Hb : JS.band (Int32.unsigned c) 255
               = Z.land (Int32.unsigned c) 255).
  { rewrite <- (Z.shiftr_0_r (Int32.unsigned c)) at 2.
    rewrite <- (shifted_byte _ 0 Hx) by (reflexivity || lia).
    unfold JS.band, JS.sar. change (0 mod 32) with 0.
    rewrite Z.shiftr_0_r. f_equal. symmetry. apply ToInt32_small.
    unfold JS.ToInt32, Int32.signed.
    destruct (Z.ltb_spec (Int32.unsigned c mod 2 ^ 32) (2 ^ 31));
      Z.div_mod_to_equations; lia. }
  unfold IOS.colorOfInt, Web.colorToRgba, Web.decode.
  cbn [IOS.alpha IOS.red IOS.green IOS.blue Web.ch_a Web.ch_r Web.ch_g
       Web.ch_b Web.css_a].
  rewrite Hu, Hb, !shifted_byte by (assumption || reflexivity || lia).
  repeat split; try reflexivity.
  - rewrite Qred_correct. reflexivity.
  - apply alpha_is_masked_shift.
Qed.

Lemma direction_points (v v' : IOS.View) :
  IOS._direction v = IOS._direction v' ->
  IOS.gl_startPoint (IOS.updateGradientDirection v)
  = IOS.gl_startPoint (IOS.updateGradientDirection v') /\
  IOS.gl_endPoint (IOS.updateGradientDirection v)
  = IOS.gl_endPoint (IOS.updateGradientDirection v').
Proof.
  intros E. unfold IOS.updateGradientDirection. rewrite E.
  destruct (String.eqb (IOS._direction v') "top"); [split; reflexivity|].
  destruct (String.eqb (IOS._direction v') "bottom"); [split; reflexivity|].
  destruct (String.eqb (IOS._direction v') "left"); [split; reflexivity|].
  destruct (String.eqb (IOS._direction v') "right"); split; reflexivity.
Qed.

Lemma direction_kept (v : IOS.View) :
  IOS._direction (IOS.updateGradientDirection v) = IOS._direction v /\
  IOS._colors (IOS.updateGradientDirection v) = IOS._colors v /\
  IOS._locations (IOS.updateGradientDirection v) = IOS._locations v /\
  IOS.gl_colors (IOS.updateGradientDirection v) = IOS.gl_colors v /\
  IOS.gl_locations (IOS.updateGradientDirection v) = IOS.gl_locations v.
Proof.
  unfold IOS.updateGradientDirection.
  repeat match goal with |- context [if ?c then _ else _] => destruct c end;
    repeat split.
Qed.

Lemma updateGradientMask_synced (v : IOS.View) :
  IOS.gl_colors (IOS.updateGradientMask v)
  = IOS._colors (IOS.updateGradientMask v) /\
  IOS.gl_locations (IOS.updateGradientMask v)
  = IOS._locations (IOS.updateGradientMask v) /\
  IOS.gl_startPoint (IOS.updateGradientDirection (IOS.updateGradientMask v))
  = IOS.gl_startPoint (IOS.updateGradientMask v) /\
  IOS.gl_endPoint (IOS.updateGradientDirection (IOS.updateGradientMask v))
  = IOS.gl_endPoint (IOS.updateGradientMask v).
Proof.
  unfold IOS.updateGradientMask.
  cbn [IOS.gl_colors IOS.gl_locations IOS._colors IOS._locations
       IOS.gl_startPoint IOS.gl_endPoint].
  match goal with
  | |- context [IOS.updateGradientDirection
                  (IOS.mkView ?a ?b ?c ?d ?e ?f ?g ?h ?i ?j ?k ?l ?m ?n)] =>
      set (w := IOS.mkView a b c d e f g h i j k l m n)
  end.
  destruct (direction_kept w) as (Ed & Ec & El & Egc & Egl).
  rewrite Ec, El, Egc, Egl. cbn [w IOS._colors IOS._locations IOS.gl_colors
                                  IOS.gl_locations].
  split; [reflexivity|]. split; [reflexivity|].
  apply direction_points. cbn [IOS._direction]. exact Ed.
Qed.

Lemma module_step_synced (v : IOS.View) (e : IOSModule.Event) :
  (IOS.gl_colors v = IOS._colors v /\
   IOS.gl_locations v = IOS._locations v /\
   IOS.gl_startPoint (IOS.updateGradientDirection v) = IOS.gl_startPoint v /\
   IOS.gl_endPoint (IOS.updateGradientDirection v) = IOS.gl_endPoint v) ->
  IOS.gl_colors (IOSModule.step v e) = IOS._colors (IOSModule.step v e) /\
  IOS.gl_locations (IOSModule.step v e)
  = IOS._locations (IOSModule.step v e) /\
  IOS.gl_startPoint (IOS.updateGradientDirection (IOSModule.step v e))
  = IOS.gl_startPoint (IOSModule.step v e) /\
  IOS.gl_endPoint (IOS.updateGradientDirection (IOSModule.step v e))
  = IOS.gl_endPoint (IOSModule.step v e).
Proof.
  intros H. destruct e as [c|l|d|o|]; cbn [IOSModule.step].
  - destruct c; [apply updateGradientMask_synced | exact H].
  - destruct l; [apply updateGradientMask_synced | exact H].
  - apply updateGradientMask_synced.
  - destruct H as (Hc & Hl & Hs & He).
    unfold IOSModule.propMaskOpacity.
    set (w := IOS.setMaskOpacity _ v).
    destruct (direction_points w v eq_refl) as [E1 E2].
    rewrite E1, E2. repeat split; assumption.
  - apply updateGradientMask_synced.
Qed.

Lemma module_step_is_step (v : IOS.View) (e : IOSModule.Event) :
  exists e', IOSModule.step v e = IOS.step v e'.
Proof.
  destruct e as [c|l|d|o|].
  - exists (IOS.SetColors c). reflexivity.
  - exists (IOS.SetLocations l). reflexivity.
  - exists (IOS.SetDirection (match d with Some s => s | None => "top" end)).
    reflexivity.
  - exists (IOS.SetMaskOpacity (match o with Some q => q | None => 1%Q end)).
    reflexivity.
  - exists IOS.LayoutSubviews. reflexivity.
Qed.

(** X23. Whatever props and layout passes an iOS view receives, the
    gradient layer shows the view's current colours and locations, its
    start and end points are those of the current direction, and the solid
    overlay is opaque black with opacity one minus the current mask
    opacity. *)
Theorem ios_layers_follow_props (es : list IOSModule.Event) (b : Q * Q) :
  IOS.gl_colors (IOSModule.run es (IOS.setupView b))
  = IOS._colors (IOSModule.run es (IOS.setupView b)) /\
  IOS.gl_locations (IOSModule.run es (IOS.setupView b))
  = IOS._locations (IOSModule.run es (IOS.setupView b)) /\
  IOS.gl_startPoint
    (IOS.updateGradientDirection (IOSModule.run es (IOS.setupView b)))
  = IOS.gl_startPoint (IOSModule.run es (IOS.setupView b)) /\
  IOS.gl_endPoint
    (IOS.updateGradientDirection (IOSModule.run es (IOS.setupView b)))
  = IOS.gl_endPoint (IOSModule.run es (IOS.setupView b)) /\
  IOS.overlayOk (IOSModule.run es (IOS.setupView b)).
Proof.
  unfold IOSModule.run.
  assert (H0 : (IOS.gl_colors (IOS.setupView b) = IOS._colors (IOS.setupView b) /\
                IOS.gl_locations (IOS.setupView b)
                = IOS._locations (IOS.setupView b) /\
                IOS.gl_startPoint
                  (IOS.updateGradientDirection (IOS.setupView b))
                = IOS.gl_startPoint (IOS.setupView b) /\
                IOS.gl_endPoint
                  (IOS.updateGradientDirection (IOS.setupView b))
                = IOS.gl_endPoint (IOS.setupView b)) /\
               IOS.overlayOk (IOS.setupView b)).
  { split; [repeat split | apply setupView_overlay]. }
  revert H0. generalize (IOS.setupView b).
  induction es as [|e es IH]; intros v [Hs Ho]; cbn [fold_left].
  - destruct Hs as (H1 & H2 & H3 & H4). repeat split; try assumption;
      apply Ho.
  - apply IH. split.
    + apply module_step_synced, Hs.
    + destruct (module_step_is_step v e) as [e' ->].
      apply step_overlay, Ho.
Qed.

Lemma clamp_complement (o : Q) :
  (IOS.clamp01 (1 - o) == 1 - Graphics.coerceIn o 0 1)%Q.
Proof.
  unfold IOS.clamp01, Graphics.coerceIn.
  destruct (Qle_bool 0 o) eqn:H0; cbn [negb].
  - apply Qle_bool_iff in H0.
    destruct (Qle_bool o 1) eqn:H1; cbn [negb].
    + apply Qle_bool_iff in H1.
      destruct (Qle_bool (1 - o) 0) eqn:Ha.
      * apply Qle_bool_iff in Ha. lra.
      * destruct (Qle_bool 1 (1 - o)) eqn:Hb.
        -- apply Qle_bool_iff in Hb. lra.
        -- reflexivity.
    + assert (Ha : Qle_bool (1 - o) 0 = true).
      { apply Qle_bool_iff.
        destruct (Qlt_le_dec 1 o) as [Hlt|Hle]; [lra|].
        apply Qle_bool_iff in Hle. congruence. }
      rewrite Ha. ring.
  - assert (Hlt : (o < 0)%Q).
    { apply Qnot_le_lt. intros Hle. apply Qle_bool_iff in Hle. congruence. }
    assert (Ha : Qle_bool (1 - o) 0 = false).
    { destruct (Qle_bool (1 - o) 0) eqn:Ha; [|reflexivity].
      apply Qle_bool_iff in Ha. lra. }
    assert (Hb : Qle_bool 1 (1 - o) = true) by (apply Qle_bool_iff; lra).
    rewrite Ha, Hb. ring.
Qed.

(** X24. The iOS view stores the opacity it is given without clamping it,
    and still masks as the Android view does after clamping: for every
    opacity value, negative or above one included, the composite mask has
    the alpha that the Android colour matrix gives for the value clamped to
    [0, 1]. *)
Theorem ios_opacity_acts_clamped (u : IOS.View) (o g r gr b : Q) :
  IOS.overlayOk u -> IOS.masked u ->
  (IOS.effectiveAlpha (IOS.setMaskOpacity o u) g
   == g * Graphics.coerceIn o 0 1 + 255 * (1 - Graphics.coerceIn o 0 1))%Q /\
  (IOS.effectiveAlpha (IOS.setMaskOpacity o u) g
   == Graphics.filterAlpha (Android.opacityMatrix (Graphics.coerceIn o 0 1))
                           r gr b g)%Q.
Proof.
  intros [Hc _] [frame Hm].
  assert (E : (IOS.effectiveAlpha (IOS.setMaskOpacity o u) g
               == g * Graphics.coerceIn o 0 1
                  + 255 * (1 - Graphics.coerceIn o 0 1))%Q).
  { unfold IOS.effectiveAlpha, IOS.setMaskOpacity, IOS.updateMaskOpacity.
    cbn [IOS.layer_mask]. rewrite Hm.
    unfold IOS.compositeAlpha, IOS.layerAlpha, IOS.sourceOver.
    cbn [fold_left IOS.cm_sublayers IOS.sl_opacity IOS.sl_backgroundColor
         IOS._maskOpacity].
    rewrite Hc. cbn [IOS.alpha IOS.black].
    rewrite clamp_complement. field. }
  split; [exact E|]. rewrite E, matrix_alpha_affine. reflexivity.
Qed.

Lemma ios_opacity_acts_clamped_witness :
  (IOS.effectiveAlpha (IOS.setMaskOpacity (5 # 2) Samples.iosLaidOut) 64
   == 64 * Graphics.coerceIn (5 # 2) 0 1
      + 255 * (1 - Graphics.coerceIn (5 # 2) 0 1))%Q /\
  (IOS.effectiveAlpha (IOS.setMaskOpacity (5 # 2) Samples.iosLaidOut) 64
   == Graphics.filterAlpha
        (Android.opacityMatrix (Graphics.coerceIn (5 # 2) 0 1))
        255 255 255 64)%Q.
Proof.
  apply (ios_opacity_acts_clamped Samples.iosLaidOut (5 # 2) 64 255 255 255).
  - split; [reflexivity | cbn; reflexivity].
  - exists (100, 100)%Q. reflexivity.
Defined.

(* ------------------------------------------------------------------ *)
(** ** End to end: from the colours to the mask *)

(** X25. For an intensity strictly between 0 and 1, the stop that the web
    style shows for a colour is there, at the colour's index, with the
    colour's own red, green and blue. *)
Theorem web_stop_carries_blended_alpha
    (colors : list Web.color) (locations : list Q) (d : option string)
    (m : Q) (i : nat) (c : Z) :
  (0 < m)%Q -> (m < 1)%Q -> nth_error colors i = Some (Some c) ->
  exists g s,
    Web.maskStyle colors locations d m = Some g /\
    nth_error (Web.g_stops g) i = Some s /\
    Web.css_r (Web.cs_color s) = Web.ch_r (Web.decode c) /\
    Web.css_g (Web.cs_color s) = Web.ch_g (Web.decode c) /\
    Web.css_b (Web.cs_color s) = Web.ch_b (Web.decode c).
Proof.
  intros H0 H1 Hc. unfold Web.maskStyle.
  destruct (Qle_bool m 0) eqn:E0; [apply Qle_bool_iff in E0; lra|].
  eexists. eexists. split; [reflexivity|].
  rewrite stop_at. unfold Web.adjustColorsForOpacity.
  destruct (Qle_bool 1 m) eqn:E1; [apply Qle_bool_iff in E1; lra|].
  rewrite E0. unfold Web.color in Hc. rewrite nth_error_map, Hc.
  cbn [option_map].
  split; [reflexivity|].
  destruct (channels_are_bytes c) as (_ & Hr & Hg & Hb).
  cbn [Web.cs_color Web.colorToRgba Web.css_r Web.css_g Web.css_b].
  apply rgb_of_encode; lia.
Qed.

Lemma web_stop_carries_blended_alpha_witness :
  exists g s,
    Web.maskStyle [Some 0; Some 16909060] [0; 1]%Q None (1 # 2) = Some g /\
    nth_error (Web.g_stops g) 1 = Some s /\
    Web.css_r (Web.cs_color s) = Web.ch_r (Web.decode 16909060) /\
    Web.css_g (Web.cs_color s) = Web.ch_g (Web.decode 16909060) /\
    Web.css_b (Web.cs_color s) = Web.ch_b (Web.decode 16909060).
Proof.
  apply (web_stop_carries_blended_alpha [Some 0; Some 16909060] [0; 1]%Q None
           (1 # 2) 1 16909060); reflexivity.
Defined.

(** X26. With as many locations as colours, and at least two colours, a
    rebuild on a surface of positive size is accepted by the gradient
    constructor and paints a gradient along the axis of the current
    direction whose stops are the given colours in the given order, each
    with its own alpha, at the given locations, in the given order. *)
Theorem gradient_keeps_stops (v : Android.View) (cs : list Z) (ls : list Q) :
  Android.colors v = Some cs -> Android.locations v = Some ls ->
  List.length cs = List.length ls -> (2 <= List.length cs)%nat ->
  0 < Android.width v -> 0 < Android.height v ->
  AndroidChecked.updateBaseMaskBitmap v
  = Some (Android.updateBaseMaskBitmap v) /\
  exists sh,
    Android.baseMaskBitmap (Android.updateBaseMaskBitmap v)
    = Some (Graphics.mkBitmap (Android.width v) (Android.height v)
              (Graphics.DrawRectShader sh)) /\
    map Graphics.Color_alpha (Graphics.lg_colors sh)
    = map Graphics.Color_alpha cs /\
    Graphics.lg_positions sh = ls /\
    (Graphics.lg_x0 sh, Graphics.lg_y0 sh, Graphics.lg_x1 sh, Graphics.lg_y1 sh)
    = Android.getGradientCoordinates v.
Proof.
  intros Hc Hl Hn Hne Hw Hh.
  assert (Hg : negb (Nat.eqb (List.length cs) (List.length ls))
               || Nat.eqb (List.length cs) 0 = false).
  { rewrite Hn, Nat.eqb_refl. cbn [negb orb]. apply Nat.eqb_neq. lia. }
  assert (Hcoord : forall x,
             Android.direction x = Android.direction v ->
             Android.width x = Android.width v ->
             Android.height x = Android.height v ->
             Android.getGradientCoordinates x
             = Android.getGradientCoordinates v).
  { intros x Ed Ew Eh. unfold Android.getGradientCoordinates.
    rewrite Ed, Ew, Eh. reflexivity. }
  split.
  { unfold AndroidChecked.updateBaseMaskBitmap,
      AndroidChecked.constructorThrows.
    rewrite (positive_size v Hw Hh), Hc, Hl, Hg, length_map.
    rewrite (proj2 (Nat.ltb_ge _ _) Hne).
    rewrite Hn, Nat.eqb_refl. reflexivity. }
  unfold Android.updateBaseMaskBitmap. rewrite (positive_size v Hw Hh).
  unfold Android.recycleOld.
  destruct (Android.baseMaskBitmap v);
    cbn [Android.call Android.colors Android.locations Android.width
         Android.height];
    rewrite Hc, Hl, Hg;
    match goal with
    | |- context [Android.getGradientCoordinates ?x] =>
        rewrite (Hcoord x eq_refl eq_refl eq_refl)
    end;
    destruct (Android.getGradientCoordinates v) as [[[sx sy] ex] ey];
    eexists; (split; [reflexivity|]);
    cbn [Graphics.lg_colors Graphics.lg_positions Graphics.lg_x0
         Graphics.lg_y0 Graphics.lg_x1 Graphics.lg_y1];
    (split; [|split; reflexivity]);
    rewrite map_map; apply map_ext; intros c; apply maskColor_alpha.
Qed.

Lemma gradient_keeps_stops_witness :
  AndroidChecked.updateBaseMaskBitmap Samples.androidDrawn
  = Some (Android.updateBaseMaskBitmap Samples.androidDrawn) /\
  exists sh,
    Android.baseMaskBitmap (Android.updateBaseMaskBitmap Samples.androidDrawn)
    = Some (Graphics.mkBitmap (Android.width Samples.androidDrawn)
              (Android.height Samples.androidDrawn)
              (Graphics.DrawRectShader sh)) /\
    map Graphics.Color_alpha (Graphics.lg_colors sh)
    = map Graphics.Color_alpha Samples.fade /\
    Graphics.lg_positions sh = [0; 1]%Q /\
    (Graphics.lg_x0 sh, Graphics.lg_y0 sh, Graphics.lg_x1 sh, Graphics.lg_y1 sh)
    = Android.getGradientCoordinates Samples.androidDrawn.
Proof.
  apply (gradient_keeps_stops Samples.androidDrawn Samples.fade [0; 1]%Q);
    reflexivity.
Defined.
